(** * Swoogo evidence capture: a shallow embedding of [capture.js]

    The script drives a browser page through a fixed sequence of evidence
    captures per registrant, zips the registrant's folder, uploads the zip
    and removes the folder.  The embedding keeps the script's functions and
    names.  The browser, the file system and the blob store are explicit
    state; what the target site answers is an oracle record [Env]. *)

From stdpp Require Import gmap strings list pretty.
From Stdlib Require Import Ascii String ZArith Lia.

Local Open Scope string_scope.

(** ** Strings as the script uses them *)

Module Str.

(** Character classes.  Strings are byte strings (UTF-8); the script's
    patterns only mention ASCII characters. *)
Definition code (c : ascii) : nat := nat_of_ascii c.

Definition is_digit (c : ascii) : bool :=
  (48 <=? code c)%nat && (code c <=? 57)%nat.

Definition is_upper (c : ascii) : bool :=
  (65 <=? code c)%nat && (code c <=? 90)%nat.

(** [toLowerCase], on the ASCII letters. *)
Definition lower_char (c : ascii) : ascii :=
  if is_upper c then ascii_of_nat (code c + 32) else c.

Fixpoint toLowerCase (s : string) : string :=
  match s with
  | EmptyString => EmptyString
  | String c r => String (lower_char c) (toLowerCase r)
  end.

(** [s.startsWith(p)] with the remainder. *)
Fixpoint strip_prefix (p s : string) : option string :=
  match p, s with
  | EmptyString, _ => Some s
  | String a p', String b s' =>
      if Ascii.eqb a b then strip_prefix p' s' else None
  | String _ _, EmptyString => None
  end.

Definition starts_with (p s : string) : bool :=
  match strip_prefix p s with Some _ => true | None => false end.

(** [h.includes(n)]: [n] occurs somewhere in [h]. *)
Fixpoint includes (h n : string) : bool :=
  starts_with n h ||
  match h with
  | EmptyString => false
  | String _ r => includes r n
  end.

(** The CSS attribute selector [attr*=n]: a case-sensitive substring
    test that matches nothing when [n] is empty. *)
Definition css_contains (attr n : string) : bool :=
  match n with
  | EmptyString => false
  | _ => includes attr n
  end.

(** The longest prefix of digits: what [(\d+)] consumes. *)
Fixpoint take_digits (s : string) : string :=
  match s with
  | EmptyString => EmptyString
  | String c r => if is_digit c then String c (take_digits r) else EmptyString
  end.

Definition is_sep (c : ascii) : bool :=
  Ascii.eqb c "?" || Ascii.eqb c "&".

(** The pattern [[?&]key=(\d+)] anchored at the head of [s]. *)
Definition match_here (key s : string) : option string :=
  match s with
  | EmptyString => None
  | String c r =>
      if is_sep c then
        match strip_prefix (key ++ "=") r with
        | Some rest =>
            match take_digits rest with
            | EmptyString => None
            | d => Some d
            end
        | None => None
        end
      else None
  end.

(** [/[?&]key=(\d+)/.exec(s)]: group 1 of the leftmost match. *)
Fixpoint exec_query_digits (key s : string) : option string :=
  match match_here key s with
  | Some d => Some d
  | None =>
      match s with
      | EmptyString => None
      | String _ r => exec_query_digits key r
      end
  end.

(** Characters that [safe] replaces: the control characters 0x00-0x1F
    and [<], [>], [:], the double quote, [/], the backslash, [|], [?]
    and the star. *)
Definition unsafe_char (c : ascii) : bool :=
  (code c <=? 31)%nat ||
  existsb (Nat.eqb (code c)) [60; 62; 58; 34; 47; 92; 124; 63; 42]%nat.

Fixpoint replace_unsafe (s : string) : string :=
  match s with
  | EmptyString => EmptyString
  | String c r => String (if unsafe_char c then "_"%char else c) (replace_unsafe r)
  end.

(** White space that [trim] strips, among the ASCII characters: tab, line
    feed, vertical tab, form feed, carriage return and the blank. *)
Definition is_space (c : ascii) : bool :=
  existsb (Nat.eqb (code c)) [9; 10; 11; 12; 13; 32]%nat.

Fixpoint trim_start (s : string) : string :=
  match s with
  | EmptyString => EmptyString
  | String c r => if is_space c then trim_start r else s
  end.

Fixpoint trim_end (s : string) : string :=
  match s with
  | EmptyString => EmptyString
  | String c r =>
      match trim_end r with
      | EmptyString => if is_space c then EmptyString else String c EmptyString
      | r' => String c r'
      end
  end.

Definition trim (s : string) : string := trim_end (trim_start s).

(** [safe]: every unsafe character becomes an underscore, then [trim]. *)
Definition safe (s : string) : string := trim (replace_unsafe s).

(** [path.join(a, b)] for a resolved directory [a] and a single segment. *)
Definition path_join (a b : string) : string := a ++ "/" ++ b.

(** Split at the last slash: ([path.dirname], [path.basename]). *)
Fixpoint split_last (s : string) : option (string * string) :=
  match s with
  | EmptyString => None
  | String c r =>
      match split_last r with
      | Some (d, b) => Some (String c d, b)
      | None => if Ascii.eqb c "/" then Some (EmptyString, r) else None
      end
  end.

Definition dirname (s : string) : string :=
  match split_last s with Some (d, _) => d | None => "." end.

Definition basename (s : string) : string :=
  match split_last s with Some (_, b) => b | None => s end.

(** Strings are UTF-8.  A byte below 128 is an ASCII character; the other
    characters are a lead byte followed by one, two or three continuation
    bytes. *)
Definition is_ascii (c : ascii) : bool := (code c <? 128)%nat.

Definition is_cont (c : ascii) : bool :=
  (128 <=? code c)%nat && (code c <? 192)%nat.

Definition is_lead2 (c : ascii) : bool :=
  (192 <=? code c)%nat && (code c <? 224)%nat.

Definition is_lead3 (c : ascii) : bool :=
  (224 <=? code c)%nat && (code c <? 240)%nat.

Definition is_lead4 (c : ascii) : bool :=
  (240 <=? code c)%nat && (code c <? 248)%nat.

(** The line terminators, which the dot of a pattern refuses: line feed,
    carriage return, and U+2028 and U+2029, in UTF-8 the bytes [E2 80 A8]
    and [E2 80 A9]. *)
Definition is_eol (c : ascii) : bool :=
  Ascii.eqb c "010" || Ascii.eqb c "013".

Definition is_line_sep (a b c : ascii) : bool :=
  (code a =? 226)%nat && (code b =? 128)%nat
  && ((code c =? 168)%nat || (code c =? 169)%nat).

(** [s] is one character that is a single UTF-16 code unit (one, two or
    three bytes of UTF-8) and no line terminator, followed by [png] and
    nothing else: a match of [.png$] that begins with this character. *)
Definition unit_then_png (s : string) : bool :=
  match s with
  | EmptyString => false
  | String a r =>
      if is_ascii a then negb (is_eol a) && String.eqb r "png"
      else if is_lead2 a then
        match r with
        | String b r' => is_cont b && String.eqb r' "png"
        | EmptyString => false
        end
      else if is_lead3 a then
        match r with
        | String b (String c r') =>
            is_cont b && is_cont c && negb (is_line_sep a b c) && String.eqb r' "png"
        | _ => false
        end
      else false
  end.

(** [s] is one character of four bytes, in UTF-16 a surrogate pair,
    followed by [png] and nothing else: the dot matches the second
    surrogate only. *)
Definition pair_then_png (s : string) : bool :=
  match s with
  | String a (String b (String c (String d r))) =>
      is_lead4 a && is_cont b && is_cont c && is_cont d && String.eqb r "png"
  | _ => false
  end.

(** What is left of a surrogate pair that lost its second half, once the
    string is written out as UTF-8: the replacement character U+FFFD. *)
Definition lone_surrogate : string :=
  String "239" (String "191" (String "189" EmptyString)).

(** [outputPath.replace(/.png$/, '__full.png')]: the dot is unescaped, so
    any character other than a line terminator that is followed by [png]
    at the end is replaced. *)
Fixpoint replace_png_suffix (s : string) : string :=
  match s with
  | EmptyString => EmptyString
  | String c r =>
      if unit_then_png (String c r) then "__full.png"
      else if pair_then_png (String c r) then lone_surrogate ++ "__full.png"
      else String c (replace_png_suffix r)
  end.

Definition hex_digit (n : nat) : ascii :=
  if (n <? 10)%nat then ascii_of_nat (48 + n) else ascii_of_nat (55 + n).

Definition is_lower (c : ascii) : bool :=
  (97 <=? code c)%nat && (code c <=? 122)%nat.

(** Characters [encodeURIComponent] leaves alone: letters, digits and
    the nine marks listed by their codes below. *)
Definition uri_unreserved (c : ascii) : bool :=
  is_digit c || is_upper c || is_lower c ||
  existsb (Nat.eqb (code c)) [45; 95; 46; 33; 126; 42; 39; 40; 41]%nat.

Fixpoint encodeURIComponent (s : string) : string :=
  match s with
  | EmptyString => EmptyString
  | String c r =>
      if uri_unreserved c then String c (encodeURIComponent r)
      else String "%" (String (hex_digit (code c / 16))
             (String (hex_digit (code c mod 16)) (encodeURIComponent r)))
  end.

Definition nonempty (s : string) : bool :=
  match s with EmptyString => false | _ => true end.

(** The line feed. *)
Definition nl : string := String "010" EmptyString.

Fixpoint all_chars (P : ascii -> bool) (s : string) : bool :=
  match s with
  | EmptyString => true
  | String c r => P c && all_chars P r
  end.

Definition not_slash (c : ascii) : bool := negb (Ascii.eqb c "/").

End Str.

(** ** The page as the script observes it *)

Module Dom.

(** The inline style declarations the script reads and writes; the empty
    string stands for an absent declaration, as the CSSOM getters do.
    Each declaration has its priority: [true] when it was written with
    [!important]. *)
Record Style := mkDecls {
  st_height : string;
  st_maxHeight : string;
  st_overflowX : string;
  st_overflowY : string;
  imp_height : bool;
  imp_maxHeight : bool;
  imp_overflowX : bool;
  imp_overflowY : bool
}.

(** Four declarations without priority. *)
Definition mkStyle (height maxHeight overflowX overflowY : string) : Style :=
  mkDecls height maxHeight overflowX overflowY false false false false.

Definition overflow_kw (v : string) : bool :=
  existsb (String.eqb v) ["visible"; "hidden"; "clip"; "scroll"; "auto"].

Definition wide_kw (v : string) : bool :=
  existsb (String.eqb v) ["inherit"; "initial"; "unset"; "revert"].

(** Getter of the [overflow] shorthand: empty unless both longhands are
    declared with the same priority; one keyword when they agree, two
    otherwise. *)
Definition get_overflow (s : Style) : string :=
  if Str.nonempty (st_overflowX s) && Str.nonempty (st_overflowY s)
     && Bool.eqb (imp_overflowX s) (imp_overflowY s) then
    if String.eqb (st_overflowX s) (st_overflowY s) then st_overflowX s
    else st_overflowX s ++ " " ++ st_overflowY s
  else "".

Fixpoint split_space (v : string) : option (string * string) :=
  match v with
  | EmptyString => None
  | String c r =>
      if Ascii.eqb c " " then Some (EmptyString, r)
      else match split_space r with
           | Some (a, b) => Some (String c a, b)
           | None => None
           end
  end.

Definition parse_overflow (v : string) : option (string * string) :=
  if overflow_kw v || wide_kw v then Some (v, v)
  else match split_space v with
       | Some (a, b) => if overflow_kw a && overflow_kw b then Some (a, b) else None
       | None => None
       end.

(** An assignment [el.style.x = v] writes the declaration without
    priority: a declaration that takes loses its [!important], a removed
    declaration has none, and an assignment that is ignored changes
    nothing. *)

(** Setter of the [overflow] shorthand: the empty string removes both
    longhands, a valid value sets both, anything else is ignored. *)
Definition set_overflow (v : string) (s : Style) : Style :=
  match v with
  | EmptyString =>
      mkDecls (st_height s) (st_maxHeight s) EmptyString EmptyString
        (imp_height s) (imp_maxHeight s) false false
  | _ =>
      match parse_overflow v with
      | Some (a, b) =>
          mkDecls (st_height s) (st_maxHeight s) a b
            (imp_height s) (imp_maxHeight s) false false
      | None => s
      end
  end.

Definition set_overflowY (v : string) (s : Style) : Style :=
  match v with
  | EmptyString =>
      mkDecls (st_height s) (st_maxHeight s) (st_overflowX s) EmptyString
        (imp_height s) (imp_maxHeight s) (imp_overflowX s) false
  | _ =>
      if overflow_kw v || wide_kw v
      then mkDecls (st_height s) (st_maxHeight s) (st_overflowX s) v
             (imp_height s) (imp_maxHeight s) (imp_overflowX s) false
      else s
  end.

(** The script only assigns lengths it computed, [none], or values it read
    from the same style object, so the length setters always take. *)
Definition set_height (v : string) (s : Style) : Style :=
  mkDecls v (st_maxHeight s) (st_overflowX s) (st_overflowY s)
    false (imp_maxHeight s) (imp_overflowX s) (imp_overflowY s).

Definition set_maxHeight (v : string) (s : Style) : Style :=
  mkDecls (st_height s) v (st_overflowX s) (st_overflowY s)
    (imp_height s) false (imp_overflowX s) (imp_overflowY s).

(** The object stored as JSON in the [__pre_expand__] attribute. *)
Record Saved := mkSaved { h : string; mh : string; oy : string; o : string }.

(** An element: its inline style, the computed [overflow-y] the browser
    reports for a given inline style, its layout heights, and the marker
    attribute. *)
Record Element := mkElement {
  el_style : Style;
  el_computedOverflowY : Style -> string;
  el_scrollHeight : nat;
  el_clientHeight : nat;
  el_pre_expand : option Saved
}.

Definition with_style (f : Style -> Style) (e : Element) : Element :=
  mkElement (f (el_style e)) (el_computedOverflowY e)
    (el_scrollHeight e) (el_clientHeight e) (el_pre_expand e).

(** Anchors with an [href] and forms with an [action], in document order. *)
Inductive Node :=
  | Anchor (href : string) (visible : bool)
  | Form (action : string) (visible : bool).

Definition node_visible (n : Node) : bool :=
  match n with Anchor _ v => v | Form _ v => v end.

(** An element matched by the e-mail candidate selector list. *)
Record Cand := mkCand { cand_name : string; cand_visible : bool }.

(** The preview iframe of the Send Email page, as [waitForSelector] and
    [contentFrame] see it. *)
Inductive Preview :=
  | NotAttached
  | NoContentFrame
  | FrameReady (html_shot_ok : bool).

Record Page := mkPage {
  p_url : string;
  p_baseURI : string;
  p_actions : bool;            (* the Actions button is visible *)
  p_nodes : list Node;
  p_iframes : list bool;       (* per iframe: its body can be shot *)
  p_email : list Cand;
  p_preview : Preview;
  p_html : Element;
  p_body : Element;
  p_elems : list Element;      (* every other element *)
  p_styleTags : nat;
  p_shot : bool;               (* page.screenshot succeeds *)
  p_pdf : bool                 (* page.pdf succeeds *)
}.

Definition with_dom (html body : Element) (elems : list Element) (tags : nat)
    (p : Page) : Page :=
  mkPage (p_url p) (p_baseURI p) (p_actions p) (p_nodes p) (p_iframes p)
    (p_email p) (p_preview p) html body elems tags (p_shot p) (p_pdf p).

End Dom.

Import Dom.

(** What a written file holds. *)
Inductive Content :=
  | FullPageImg (url : string)
  | FrameBodyImg (url : string)
  | ElementImg (url : string) (which : string)
  | FrameHtmlImg (url : string)
  | PdfDoc (url : string).

Inductive LogEv :=
  | Info (msg : string)
  | Warn (msg : string)
  | Err (msg : string).

(** The mutable world: the browser tab, the local directories with their
    files, the temporary archives, the blob container and the console. *)
Record World := mkWorld {
  w_page : Page;
  w_fs : gmap string (gmap string Content);
  w_zips : gmap string (list string);
  w_blobs : gmap string (list string);
  w_log : list LogEv
}.

(** Outcome of clicking a menu item while waiting for a pop-up and for a
    navigation. *)
Inductive ClickOutcome :=
  | ClickFails
  | OpensPopup (p : Page)
  | Navigates (p : Page)
  | NoSurface.

(** The environment's answers.  [None] or [false] is a thrown error.
    [zip_leftover] is what a failed zip leaves at the archive path: [None]
    when the file could not be opened, the entries written so far when it
    was created or truncated before the failure.  [waitForTimeout_ok] and
    [evaluate_ok] tell whether the page still answers the pause after the
    click on the Actions button and the scan of the anchors in
    [findActionHrefByUrlContains]: both calls reject once the tab is closed
    or has crashed. *)
Record Env := mkEnv {
  goto_result : string -> option Page;
  actions_click : Page -> option Page;
  menu_click : string -> Page -> ClickOutcome;
  new_URL : string -> string -> option string;
  zip_ok : string -> bool;
  upload_ok : string -> bool;
  unlink_ok : string -> bool;
  rm_ok : string -> bool;
  blob_url : string -> string;
  tmpdir : string;
  zip_leftover : string -> option (list string);
  waitForTimeout_ok : Page -> bool;
  evaluate_ok : Page -> bool
}.

(** The warnings that mark a fallback capture. *)
Definition warn_confirmation_click : LogEv :=
  Warn "  ⚠ Could not resolve Confirmation URL from Actions; attempting click fallback.".

Definition warn_invoice_click : LogEv :=
  Warn "  ⚠ Could not resolve Invoice URL from Actions; attempting click fallback.".

Definition warn_confirmation_full : LogEv :=
  Warn "  ⚠ Could not isolate email body; saved full page instead".

Definition warn_frame_full : LogEv :=
  Warn "⚠ Could not resolve contentFrame; fallback to full page screenshot".

(** ** A state and exception monad for the script's control flow *)

Inductive Res (A : Type) :=
  | Ok (a : A)
  | Throw (e : string).
Arguments Ok {A} a.
Arguments Throw {A} e.

Definition M (A : Type) : Type := World -> Res A * World.

Definition ret {A} (a : A) : M A := fun w => (Ok a, w).

Definition bind {A B} (m : M A) (k : A -> M B) : M B :=
  fun w => match m w with
           | (Ok a, w') => k a w'
           | (Throw e, w') => (Throw e, w')
           end.

Definition throw {A} (e : string) : M A := fun w => (Throw e, w).

(** [try { m } catch (e) { h e }] *)
Definition try_catch {A} (m : M A) (h : string -> M A) : M A :=
  fun w => match m w with
           | (Ok a, w') => (Ok a, w')
           | (Throw e, w') => h e w'
           end.

Notation "x <- m ;; k" := (bind m (fun x => k))
  (at level 100, m at next level, right associativity).
Notation "m ;;; k" := (bind m (fun _ => k))
  (at level 100, right associativity).

Definition get_page : M Page := fun w => (Ok (w_page w), w).

Definition set_page (p : Page) : M unit :=
  fun w => (Ok tt, mkWorld p (w_fs w) (w_zips w) (w_blobs w) (w_log w)).

Definition console (ev : LogEv) : M unit :=
  fun w => (Ok tt, mkWorld (w_page w) (w_fs w) (w_zips w) (w_blobs w) (w_log w ++ [ev])).

(** Writing [path]: the browser creates the parent directory when it is
    missing, then the file replaces any file of that name. *)
Definition write_file (path : string) (c : Content) : M unit :=
  fun w =>
    let d := Str.dirname path in
    let old := default ∅ (w_fs w !! d) in
    (Ok tt, mkWorld (w_page w) (<[d := <[Str.basename path := c]> old]> (w_fs w))
              (w_zips w) (w_blobs w) (w_log w)).

(** [fs.mkdirSync(dir, { recursive: true })]: no effect on an existing
    directory.  The parent is the output root, which the main function
    creates first. *)
Definition mkdirSync (dir : string) : M unit :=
  fun w =>
    (Ok tt, mkWorld (w_page w)
              (match w_fs w !! dir with Some _ => w_fs w | None => <[dir := ∅]> (w_fs w) end)
              (w_zips w) (w_blobs w) (w_log w)).

(** Run [m] against another tab [p] (a pop-up); the main tab is untouched,
    also when [m] throws. *)
Definition on_page {A} (p : Page) (m : M A) : M A :=
  fun w =>
    let main := w_page w in
    match m (mkWorld p (w_fs w) (w_zips w) (w_blobs w) (w_log w)) with
    | (r, w') => (r, mkWorld main (w_fs w') (w_zips w') (w_blobs w') (w_log w'))
    end.

(** ** Azure and zipping helpers *)

Record ProcessEnv := mkProcessEnv {
  AZURE_STORAGE_CONNECTION_STRING : string;
  AZURE_BLOB_CONTAINER : string;
  AZURE_BLOB_SAS_URL : string
}.

(** A [BlobServiceClient], by the way it was made. *)
Inductive Service :=
  | ServiceFromConnectionString (conn : string)
  | ServiceFromUrl (url : string).

(** A [ContainerClient]: the service it belongs to and the container name
    it was asked for. *)
Record ContainerClient := mkContainerClient {
  cc_service : Service;
  cc_name : string
}.

(** The storage library.  Its constructors check what they are given and
    throw on a malformed value: [None] is the accepted value, [Some e]
    the message of the error. *)
Record BlobSdk := mkBlobSdk {
  fromConnectionString_error : string -> option string;
  new_BlobServiceClient_error : string -> option string;
  getContainerClient_error : Service -> string -> option string
}.

(** [BlobServiceClient.fromConnectionString(conn)] *)
Definition fromConnectionString (sdk : BlobSdk) (conn : string) : string + Service :=
  match fromConnectionString_error sdk conn with
  | Some e => inl e
  | None => inr (ServiceFromConnectionString conn)
  end.

(** [new BlobServiceClient(url)] *)
Definition new_BlobServiceClient (sdk : BlobSdk) (url : string) : string + Service :=
  match new_BlobServiceClient_error sdk url with
  | Some e => inl e
  | None => inr (ServiceFromUrl url)
  end.

(** [service.getContainerClient(name)] *)
Definition getContainerClient (sdk : BlobSdk) (service : Service) (name : string)
    : string + ContainerClient :=
  match getContainerClient_error sdk service name with
  | Some e => inl e
  | None => inr (mkContainerClient service name)
  end.

(** [buildAzureContainerClient]: [inl] is the thrown error. *)
Definition buildAzureContainerClient (sdk : BlobSdk) (pe : ProcessEnv)
    : string + ContainerClient :=
  let conn := AZURE_STORAGE_CONNECTION_STRING pe in
  let container := AZURE_BLOB_CONTAINER pe in
  let sasUrl := AZURE_BLOB_SAS_URL pe in
  if negb (Str.nonempty container) then inl "AZURE_BLOB_CONTAINER is not set"
  else if Str.nonempty conn then
    match fromConnectionString sdk conn with
    | inl e => inl e
    | inr service => getContainerClient sdk service container
    end
  else if Str.nonempty sasUrl then
    match new_BlobServiceClient sdk sasUrl with
    | inl e => inl e
    | inr service => getContainerClient sdk service ""
    end
  else inl "Provide either AZURE_STORAGE_CONNECTION_STRING or AZURE_BLOB_SAS_URL".

(** The names of the files of a directory, as the archive lists them. *)
Definition dir_entries (w : World) (dir : string) : list string :=
  (map_to_list (default ∅ (w_fs w !! dir))).*1.

Section Script.

Variable env : Env.

(** [zipDirectory(dirPath, zipPath)].  The write stream creates or
    truncates the archive before the archiver can fail, so a failed zip
    can leave a partial archive behind.  The temporary directory is taken
    to exist. *)
Definition zipDirectory (dirPath zipPath : string) : M string :=
  fun w =>
    if zip_ok env dirPath then
      (Ok zipPath, mkWorld (w_page w) (w_fs w)
                     (<[zipPath := dir_entries w dirPath]> (w_zips w))
                     (w_blobs w) (w_log w))
    else
      (Throw "zip failed",
       match zip_leftover env dirPath with
       | Some partial =>
           mkWorld (w_page w) (w_fs w) (<[zipPath := partial]> (w_zips w))
             (w_blobs w) (w_log w)
       | None => w
       end).

(** [uploadZip(containerClient, localZipPath, blobName)] *)
Definition uploadZip (localZipPath blobName : string) : M string :=
  fun w =>
    match w_zips w !! localZipPath with
    | None => (Throw "ENOENT", w)
    | Some entries =>
        if upload_ok env blobName then
          (Ok (blob_url env blobName),
           mkWorld (w_page w) (w_fs w) (w_zips w)
             (<[blobName := entries]> (w_blobs w)) (w_log w))
        else (Throw "upload failed", w)
    end.

(** [fsp.unlink(tmpZip).catch(() => {})] *)
Definition unlink_quiet (path : string) : M unit :=
  fun w =>
    if unlink_ok env path then
      (Ok tt, mkWorld (w_page w) (w_fs w) (delete path (w_zips w)) (w_blobs w) (w_log w))
    else (Ok tt, w).

(** A path is [dir] itself or lies beneath it. *)
Definition under (dir path : string) : Prop :=
  path = dir ∨ Str.starts_with (dir ++ "/") path = true.

#[global] Instance under_dec dir path : Decision (under dir path).
Proof. unfold under. apply _. Defined.

(** [rimraf(dir)]: recursive removal whose own error is swallowed.  It
    takes the folders at and beneath [dir] and any archive stored beneath
    it. *)
Definition rimraf (dir : string) : M unit :=
  fun w =>
    if rm_ok env dir then
      (Ok tt, mkWorld (w_page w)
                (filter (fun kv => ¬ under dir kv.1) (w_fs w))
                (filter (fun kv => ¬ under dir kv.1) (w_zips w))
                (w_blobs w) (w_log w))
    else (Ok tt, w).

(** [uploadAndCleanupRegistrant(containerClient, regDir, blobName)]:
    zip, upload, delete local. *)
Definition uploadAndCleanupRegistrant (regDir blobName : string) : M string :=
  let tmpZip := Str.path_join (tmpdir env) blobName in
  _ <- zipDirectory regDir tmpZip ;;
  url <- uploadZip tmpZip blobName ;;
  unlink_quiet tmpZip ;;;
  rimraf regDir ;;;
  ret url.

(** ** UI helpers *)

(** [page.goto(url)] *)
Definition goto (url : string) : M unit :=
  match goto_result env url with
  | Some p => set_page p
  | None => throw ("page.goto: " ++ url)
  end.

(** [hideLeftPanel]: one more style tag in the document. *)
Definition hideLeftPanel : M unit :=
  p <- get_page ;;
  set_page (with_dom (p_html p) (p_body p) (p_elems p) (S (p_styleTags p)) p).

Definition isScrollable (e : Element) : bool :=
  let oy := el_computedOverflowY e (el_style e) in
  (String.eqb oy "auto" || String.eqb oy "scroll")
  && (el_clientHeight e <? el_scrollHeight e)%nat.

(** The body of the loop of [expandScrollableContainers]. *)
Definition expand_element (e : Element) : Element :=
  let s := el_style e in
  let saved := mkSaved (st_height s) (st_maxHeight s) (st_overflowY s) (get_overflow s) in
  mkElement
    (set_overflowY "visible"
       (set_overflow "visible"
          (set_maxHeight "none"
             (set_height (pretty (el_scrollHeight e) ++ "px") s))))
    (el_computedOverflowY e) (el_scrollHeight e) (el_clientHeight e) (Some saved).

Definition expand_if_scrollable (e : Element) : Element :=
  if isScrollable e then expand_element e else e.

Definition expand_dom (p : Page) : Page :=
  let html := with_style (set_overflow "visible") (p_html p) in
  let body := with_style (set_overflow "visible") (p_body p) in
  with_dom (expand_if_scrollable html) (expand_if_scrollable body)
    (expand_if_scrollable <$> p_elems p) (p_styleTags p) p.

Definition expandScrollableContainers : M unit :=
  p <- get_page ;; set_page (expand_dom p).

(** The body of the loop of [restoreScrollableContainers]. *)
Definition restore_element (e : Element) : Element :=
  match el_pre_expand e with
  | None => e
  | Some prev =>
      mkElement
        (set_overflow (o prev)
           (set_overflowY (oy prev)
              (set_maxHeight (mh prev)
                 (set_height (h prev) (el_style e)))))
        (el_computedOverflowY e) (el_scrollHeight e) (el_clientHeight e) None
  end.

Definition restore_dom (p : Page) : Page :=
  with_dom (restore_element (p_html p)) (restore_element (p_body p))
    (restore_element <$> p_elems p) (p_styleTags p) p.

Definition restoreScrollableContainers : M unit :=
  p <- get_page ;; set_page (restore_dom p).

(** [page.screenshot({ path, fullPage: true })] *)
Definition page_screenshot (path : string) : M unit :=
  p <- get_page ;;
  if p_shot p then write_file path (FullPageImg (p_url p))
  else throw "page.screenshot".

(** [try { await page.pdf({ path }) } catch {}] *)
Definition page_pdf_quiet (path : string) : M unit :=
  p <- get_page ;;
  if p_pdf p then write_file path (PdfDoc (p_url p)) else ret tt.

(** [captureFullPage(page, fileBase, { pdf })] *)
Definition captureFullPage (fileBase : string) (pdf : bool) : M unit :=
  hideLeftPanel ;;;
  expandScrollableContainers ;;;
  page_screenshot (fileBase ++ ".png") ;;;
  restoreScrollableContainers ;;;
  (if pdf then page_pdf_quiet (fileBase ++ ".pdf") else ret tt) ;;;
  console (Info ("  ✔ " ++ Str.basename fileBase ++ ".png")).

(** [captureConfirmationEmail(page, fileBaseDir, baseName)] *)
Definition captureConfirmationEmail (fileBaseDir baseName : string) : M unit :=
  p <- get_page ;;
  let email_png := Str.path_join fileBaseDir (baseName ++ "__05_Confirmation_email.png") in
  saved <-
    match p_iframes p with
    | body_ok :: _ =>
        try_catch
          ((if body_ok then write_file email_png (FrameBodyImg (p_url p))
            else throw "locator.screenshot") ;;;
           console (Info "  ✔ 05_Confirmation_email.png") ;;;
           ret true)
          (fun _ => ret false)
    | [] => ret false
    end ;;
  saved <-
    (if negb saved then
       match p_email p with
       | c :: _ =>
           (if cand_visible c
            then write_file email_png (ElementImg (p_url p) (cand_name c))
            else throw "locator.screenshot") ;;;
           console (Info "  ✔ 05_Confirmation_email.png") ;;;
           ret true
       | [] => ret saved
       end
     else ret saved) ;;
  if negb saved then
    page_screenshot (Str.path_join fileBaseDir (baseName ++ "__05_Confirmation_full.png")) ;;;
    console warn_confirmation_full
  else ret tt.

(** [openActionsMenu(page)] *)
Definition openActionsMenu : M unit :=
  p <- get_page ;;
  if p_actions p then
    match actions_click env p with
    | Some p' => set_page p'
    | None => throw "click"
    end
  else throw "waitFor visible".

Definition anchor_href_contains (wanted : list string) (n : Node) : bool :=
  match n with
  | Anchor href _ => existsb (Str.css_contains href) wanted
  | Form _ _ => false
  end.

Definition getAttribute_href (n : Node) : option string :=
  match n with
  | Anchor href _ => Some href
  | Form _ _ => None
  end.

(** [new URL(href, base).toString()], keeping [href] when that throws. *)
Definition absolute_or_raw (href base : string) : string :=
  default href (new_URL env href base).

(** The scan of all anchors in [page.evaluate]. *)
Fixpoint scan_anchors (ns : list string) (base : string) (nodes : list Node)
    : option string :=
  match nodes with
  | [] => None
  | Anchor h0 _ :: rest =>
      if existsb (fun n => Str.includes (Str.toLowerCase h0) n) ns
      then Some (absolute_or_raw h0 base)
      else scan_anchors ns base rest
  | Form _ _ :: rest => scan_anchors ns base rest
  end.

(** The fast path of [findActionHrefByUrlContains]: the first anchor that
    the CSS selector matches, when it is visible and has an address. *)
Definition fast_href (p : Page) (wanted : list string) : option string :=
  match List.find (anchor_href_contains wanted) (p_nodes p) with
  | Some n =>
      if node_visible n then
        match getAttribute_href n with
        | Some href =>
            if Str.nonempty href then Some (absolute_or_raw href (p_url p)) else None
        | None => None
        end
      else None
  | None => None
  end.

(** The search of [findActionHrefByUrlContains] once the menu was dealt
    with: the fast path, then the scan. *)
Definition find_href_in (p : Page) (wanted : list string) : option string :=
  match fast_href p wanted with
  | Some u => Some u
  | None => scan_anchors (Str.toLowerCase <$> wanted) (p_baseURI p) (p_nodes p)
  end.

(** [findActionHrefByUrlContains(page, needles, { openActions })].  The
    click on the Actions button is guarded; the pause after it and the
    scan inside the page are not. *)
Definition findActionHrefByUrlContains (needles : list string) (openActions : bool)
    : M (option string) :=
  let wanted := Str.toLowerCase <$> needles in
  (if openActions then
     p <- get_page ;;
     if p_actions p then
       match actions_click env p with
       | Some p' => set_page p'
       | None => ret tt
       end ;;;
       p1 <- get_page ;;
       if waitForTimeout_ok env p1 then ret tt else throw "page.waitForTimeout"
     else ret tt
   else ret tt) ;;;
  p <- get_page ;;
  match fast_href p wanted with
  | Some u => ret (Some u)
  | None =>
      if evaluate_ok env p
      then ret (scan_anchors (Str.toLowerCase <$> wanted) (p_baseURI p) (p_nodes p))
      else throw "page.evaluate"
  end.

Definition send_email_path : string := "/loggedin/registrant/send-email".

Definition is_send_email_anchor (n : Node) : bool :=
  match n with
  | Anchor href _ => Str.css_contains href send_email_path
  | Form _ _ => false
  end.

Definition is_send_email_form (n : Node) : bool :=
  match n with
  | Anchor _ _ => false
  | Form action _ => Str.css_contains action send_email_path
  end.

(** [new URL(href, base).toString()] where the error is not caught. *)
Definition new_URL_string (href base : string) : M string :=
  match new_URL env href base with
  | Some u => ret u
  | None => throw "Invalid URL"
  end.

(** [getSendEmailHref(page, { registrantUrl })] *)
Definition getSendEmailHref (registrantUrl_opt : string) : M (option string) :=
  p <- get_page ;;
  let registrantUrl :=
    if Str.nonempty registrantUrl_opt then registrantUrl_opt else p_url p in
  let from_url :=
    let id := default "" (Str.exec_query_digits "id" registrantUrl) in
    let eventId := default "" (Str.exec_query_digits "eventId" registrantUrl) in
    if Str.nonempty id && Str.nonempty eventId then
      Some ("https://www.swoogo.com/loggedin/registrant/send-email"
            ++ "?eventId=" ++ Str.encodeURIComponent eventId
            ++ "&id=" ++ Str.encodeURIComponent id
            ++ "&RegistrantEmailForm%5Btype%5D=4840855")
    else None in
  let from_form :=
    match List.find is_send_email_form (p_nodes p) with
    | Some (Form action _) =>
        if Str.nonempty action
        then u <- new_URL_string action (p_url p) ;; ret (Some u)
        else ret from_url
    | _ => ret from_url
    end in
  match List.find is_send_email_anchor (p_nodes p) with
  | Some (Anchor href _) =>
      if Str.nonempty href
      then u <- new_URL_string href (p_url p) ;; ret (Some u)
      else from_form
  | _ => from_form
  end.

(** [captureIframeBySrc(page, srcKeyword, outputPath)].  The function has
    no [return] with a value: the result is [undefined] on both paths,
    modelled by the falsy [false].  The height it forces on the iframe
    element is not part of the page model. *)
Definition captureIframeBySrc (srcKeyword outputPath : string) : M bool :=
  p <- get_page ;;
  match p_preview p with
  | NotAttached => throw "page.waitForSelector: Timeout 15000ms exceeded"
  | NoContentFrame =>
      console warn_frame_full ;;;
      page_screenshot (Str.replace_png_suffix outputPath) ;;;
      ret false
  | FrameReady html_ok =>
      (if html_ok then write_file outputPath (FrameHtmlImg (p_url p))
       else throw "locator.screenshot") ;;;
      console (Info ("✔ Full email captured → " ++ outputPath)) ;;;
      ret false
  end.

(** [waitForSpinnerGone(page).catch(() => {})]: nothing observable. *)
Definition waitForSpinnerGone_quiet : M unit := ret tt.

(** The menu-click fallback shared by steps 05 and 06: open the menu,
    click the item, capture the pop-up if one opened, the page otherwise.
    Every error is swallowed. *)
Definition click_fallback (label : string) (capture : M unit) : M unit :=
  try_catch
    (openActionsMenu ;;;
     p <- get_page ;;
     match menu_click env label p with
     | ClickFails => throw "click"
     | OpensPopup popup => on_page popup capture
     | Navigates p' => set_page p' ;;; capture
     | NoSurface => capture
     end)
    (fun _ => ret tt).

Definition regId_of (registrantUrl : string) : string :=
  default "unknown" (Str.exec_query_digits "id" registrantUrl).

Definition regDir_of (baseOutDir registrantUrl : string) : string :=
  Str.path_join baseOutDir (regId_of registrantUrl).

Definition blobName_of (registrantUrl : string) : string :=
  regId_of registrantUrl ++ ".zip".

(** The test [if (href)] on a value that is a string or [null]: the empty
    string counts as absent. *)
Definition truthy (v : option string) : option string :=
  match v with
  | Some s => if Str.nonempty s then Some s else None
  | None => None
  end.

(** Step 05 of [processRegistrant]. *)
Definition confirmationStep (regDir baseName : string) (confirmationHref : option string)
    : M unit :=
  match truthy confirmationHref with
  | Some href =>
      goto href ;;;
      waitForSpinnerGone_quiet ;;;
      captureConfirmationEmail regDir baseName
  | None =>
      console warn_confirmation_click ;;;
      click_fallback "confirmation" (captureConfirmationEmail regDir baseName)
  end.

(** Step 06 of [processRegistrant]. *)
Definition invoiceStep (regDir baseName : string) (pdf : bool) (invoiceHref : option string)
    : M unit :=
  let fileBase := Str.path_join regDir (baseName ++ "__06_Invoice") in
  match truthy invoiceHref with
  | Some href =>
      goto href ;;;
      waitForSpinnerGone_quiet ;;;
      captureFullPage fileBase pdf
  | None =>
      console warn_invoice_click ;;;
      click_fallback "invoice" (captureFullPage fileBase pdf)
  end.

(** Step 03 of [processRegistrant]. *)
Definition ticketEmailStep (registrantUrl regDir baseName : string) : M unit :=
  try_catch
    (sendEmailHref <- getSendEmailHref registrantUrl ;;
     match truthy sendEmailHref with
     | Some href =>
         goto href ;;;
         let emailShot := Str.path_join regDir (baseName ++ "__03_Ticket_Email_Preview.png") in
         ok <- captureIframeBySrc "/frontend/preview/email" emailShot ;;
         if negb ok then console (Warn "  ⚠ Email iframe not found; saved full page instead")
         else ret tt
     | None => ret tt
     end)
    (fun e => console (Warn ("  ⚠ Could not capture Ticket Email Preview: " ++ e))).

Definition is_send_email_node (n : Node) : bool :=
  is_send_email_anchor n || is_send_email_form n.

(** Step 04 of [processRegistrant]. *)
Definition qrStep (regDir baseName : string) (pdf : bool) : M unit :=
  let fileBase := Str.path_join regDir (baseName ++ "__04_QR_Code_Ticket_Email") in
  try_catch
    (p <- get_page ;;
     match List.find is_send_email_node (p_nodes p) with
     | Some qrLink =>
         if node_visible qrLink then
           match getAttribute_href qrLink with
           | Some href =>
               if Str.nonempty href then
                 u <- new_URL_string href (p_url p) ;;
                 goto u ;;;
                 captureFullPage fileBase pdf
               else captureFullPage fileBase pdf
           | None => captureFullPage fileBase pdf
           end
         else ret tt
     | None => ret tt
     end)
    (fun _ => ret tt).

(** The last block of [processRegistrant]: zip, upload, delete. *)
Definition packageStep (regDir blobName : string) : M unit :=
  try_catch
    (uploadedUrl <- uploadAndCleanupRegistrant regDir blobName ;;
     console (Info ("  ☁ Uploaded to Azure: " ++ uploadedUrl)) ;;;
     console (Info ("  🗑️  Deleted local folder: " ++ regDir)))
    (fun e => console (Err ("  ⚠ Azure upload failed. Keeping local folder. " ++ e))).

(** Everything of [processRegistrant] before the packaging block.  The
    registrant name is extracted by the script but never used. *)
Definition captureEvidence (registrantUrl baseOutDir : string) (pdf : bool) : M unit :=
  console (Info (Str.nl ++ "▶ " ++ registrantUrl)) ;;;
  goto registrantUrl ;;;
  let regId := regId_of registrantUrl in
  let regDir := Str.path_join baseOutDir regId in
  mkdirSync regDir ;;;
  let baseName := Str.safe regId in
  captureFullPage (Str.path_join regDir (baseName ++ "__01_Attendance_Status_Proof")) pdf ;;;
  captureFullPage (Str.path_join regDir (baseName ++ "__02_Contact_Details")) pdf ;;;
  confirmationHref <- findActionHrefByUrlContains ["confirmation"] true ;;
  invoiceHref <- findActionHrefByUrlContains ["invoice"] true ;;
  confirmationStep regDir baseName confirmationHref ;;;
  invoiceStep regDir baseName pdf invoiceHref ;;;
  ticketEmailStep registrantUrl regDir baseName ;;;
  qrStep regDir baseName pdf.

(** [processRegistrant(page, registrantUrl, baseOutDir, delay, pdf, containerClient)] *)
Definition processRegistrant (registrantUrl baseOutDir : string) (pdf : bool) : M unit :=
  captureEvidence registrantUrl baseOutDir pdf ;;;
  packageStep (regDir_of baseOutDir registrantUrl) (blobName_of registrantUrl).

(** The loop of the main function: one registrant after the other, each
    inside its own [try]. *)
Fixpoint run_all (urls : list string) (outRoot : string) (pdf : bool) : M unit :=
  match urls with
  | [] => ret tt
  | u :: rest =>
      try_catch (processRegistrant u outRoot pdf)
        (fun err => console (Err ("  ✖ Error for " ++ u ++ " " ++ Str.nl ++ "    " ++ err))) ;;;
      run_all rest outRoot pdf
  end.

End Script.

(** ** The main function *)

(** The object that [parseArgs] returns, without the delay and the
    viewport, which only bear on timing and rendering.  [None] is [null]
    or [undefined]. *)
Record Args := mkArgs {
  arg_in : option string;
  arg_auth : option string;
  arg_outDir : option string;
  arg_pdf : bool;
  arg_saveSession : bool;
  arg_eventId : string
}.

(** One CSV row, by column; a missing column reads as the empty string. *)
Record Row := mkRow {
  col_registrant_url : string;
  col_RegistrantURL : string;
  col_id : string;
  col_ID : string;
  col_Registrant_ID : string;
  col_registrantId : string;
  col_registrant_id : string;
  col_eventId : string;
  col_Event_ID : string;
  col_event_id : string
}.

(** [a || b] on strings. *)
Definition or_else (a b : string) : string :=
  if Str.nonempty a then a else b.

(** The address of one row, empty when the row is not usable. *)
Definition row_url (args : Args) (r : Row) : string :=
  let url := Str.trim (or_else (col_registrant_url r) (or_else (col_RegistrantURL r) "")) in
  let id := Str.trim (or_else (col_id r) (or_else (col_ID r) (or_else (col_Registrant_ID r)
              (or_else (col_registrantId r) (or_else (col_registrant_id r) ""))))) in
  let csvEvent := Str.trim (or_else (col_eventId r) (or_else (col_Event_ID r)
              (or_else (col_event_id r) ""))) in
  let eventId := or_else (Str.trim (arg_eventId args)) csvEvent in
  if negb (Str.nonempty url) && Str.nonempty id && Str.nonempty eventId then
    "https://www.swoogo.com/loggedin/registrant/view?eventId="
      ++ Str.encodeURIComponent eventId ++ "&id=" ++ Str.encodeURIComponent id
  else url.

Definition usable_urls (args : Args) (rows : list Row) : list string :=
  List.filter Str.nonempty (row_url args <$> rows).

(** What the machine answers outside the pages: the storage library, the
    CSV file ([None]: [readCsvRows] throws), the creation of the output
    root, the start of the browser ([chromium.launch], [newContext] and
    [newPage]), and the reading and writing of the session state. *)
Record Host := mkHost {
  sdk : BlobSdk;
  readCsvRows : string -> option (list Row);
  mkdir_ok : string -> bool;
  browser_ok : bool;
  session_saved : string -> bool
}.

(** [withBrowser(contextOptions, fn)]: nothing closes the browser. *)
Definition withBrowser {A} (host : Host) (fn : M A) : M A :=
  if browser_ok host then fn else throw "browserType.launch".

Definition login_url : string := "https://www.swoogo.com/loggedin".

(** [saveSession(authPath, viewport)].  The session file lies outside the
    folders of the model. *)
Definition saveSession (env : Env) (host : Host) (authPath : string) : M unit :=
  console (Info "Opening browser to save session...") ;;;
  withBrowser host
    (goto env login_url ;;;
     console (Info (Str.nl ++ "A Chromium window is open. Please log in to Swoogo, "
                    ++ "then close the window.")) ;;;
     (if session_saved host authPath then ret tt else throw "storageState") ;;;
     console (Info ("Saved session to " ++ authPath))).

(** The script from its first statement to the end of the process: the
    exit status and the final world.  The storage client is built while
    the script loads, before the arguments are looked at.  An uncaught
    error and a rejected main promise both end the process with status 1
    (what the runtime itself prints then is not part of the console of the
    model).  Paths are taken as resolved; [path.resolve] throws on an
    undefined output directory. *)
Definition main (env : Env) (host : Host) (pe : ProcessEnv) (args : Args)
    (w : World) : nat * World :=
  match buildAzureContainerClient (sdk host) pe with
  | inl _ => (1, w)
  | inr _ =>
      if arg_saveSession args then
        let authPath := default "auth.json" (truthy (arg_auth args)) in
        match saveSession env host authPath w with
        | (Ok _, w') => (0, w')
        | (Throw _, w') => (1, w')
        end
      else match truthy (arg_in args) with
      | None => (1, (console (Err "Missing --in <registrants.csv>") w).2)
      | Some fp =>
          match arg_outDir args with
          | None => (1, w)
          | Some outRoot =>
              if mkdir_ok host outRoot then
                let w1 := (mkdirSync outRoot w).2 in
                match readCsvRows host fp with
                | None => (1, w1)
                | Some rows =>
                    let urls := usable_urls args rows in
                    match urls with
                    | [] => (1, (console (Err "No usable rows found.") w1).2)
                    | _ =>
                        match withBrowser host (run_all env urls outRoot (arg_pdf args)) w1 with
                        | (Ok _, w2) =>
                            (0, (console (Info (Str.nl ++ "Done. Files saved in: " ++ outRoot))
                                   w2).2)
                        | (Throw _, w2) => (1, w2)
                        end
                    end
                end
              else (1, w)
          end
      end
  end.

(** ** Predicates used to state the properties *)

(** A match of the pattern [[?&]key=(\d+)] somewhere in [s]. *)
Definition has_query_digits (key s : string) : Prop :=
  exists pre c d rest,
    s = pre ++ String c (key ++ "=" ++ String d rest)
    /\ Str.is_sep c = true /\ Str.is_digit d = true.

(** [ext P D w w']: from [w] to [w'] no file and no directory disappeared,
    the only directory that may be new is [D], archives and blobs are the
    same, and the console grew by events that all satisfy [P]. *)
Record ext (P : LogEv -> Prop) (D : string) (w w' : World) : Prop := mk_ext {
  ext_fs : forall d (m : gmap string Content), w_fs w !! d = Some m ->
           exists m', w_fs w' !! d = Some m' /\ dom m ⊆ dom m';
  ext_new : forall d, is_Some (w_fs w' !! d) -> is_Some (w_fs w !! d) \/ d = D;
  ext_zips : w_zips w' = w_zips w;
  ext_blobs : w_blobs w' = w_blobs w;
  ext_log : exists delta : list LogEv, w_log w' = (w_log w ++ delta)%list /\ Forall P delta
}.

(** A computation is stable when every run of it is an extension. *)
Definition Stable (P : LogEv -> Prop) (D : string) {A} (m : M A) : Prop :=
  forall w, ext P D w (m w).2.

(** The console line of a failed packaging. *)
Definition upload_failed_line (e : string) : LogEv :=
  Err ("  ⚠ Azure upload failed. Keeping local folder. " ++ e).

(** No constraint on the console events. *)
Definition any_event : LogEv -> Prop := fun _ => True.

(** The directory [dir] holds a file called [name]. *)
Definition has_file (w : World) (dir name : string) : Prop :=
  exists files : gmap string Content,
    w_fs w !! dir = Some files /\ is_Some (files !! name).

(** Some file of [dir] carries the evidence label [label] in its name. *)
Definition evidence_present (w : World) (dir label : string) : bool :=
  existsb (fun name => Str.includes name label) (dir_entries w dir).

(** ** Concrete pages and environments used as test inputs *)

Module Ex.

Definition no_style : Style := mkStyle "" "" "" "".

(** Computed [overflow-y] of an element that no style sheet touches. *)
Definition inline_or_visible (s : Style) : string :=
  if Str.nonempty (st_overflowY s) then st_overflowY s else "visible".

Definition plain_element : Element :=
  mkElement no_style inline_or_visible 0 0 None.

(** A page with nothing the script looks for. *)
Definition blank_page (url : string) : Page :=
  mkPage url url false [] [] [] NotAttached plain_element plain_element [] 0 true true.

Definition empty_world : World :=
  mkWorld (blank_page "about:blank") ∅ ∅ ∅ [].

(** A site given by the pages it serves. *)
Definition site (pages : list Page) (url : string) : option Page :=
  List.find (fun p => String.eqb (p_url p) url) pages.

(** Addresses of the example site are resolved against its origin. *)
Definition resolve (href base : string) : option string :=
  if Str.starts_with "https://" href then Some href
  else if Str.starts_with "/" href then Some ("https://www.swoogo.com" ++ href)
  else None.

(** An environment in which every operation on files and blobs succeeds
    and the menus do nothing. *)
Definition env_of (goto_result : string -> option Page) : Env :=
  mkEnv goto_result (fun p => Some p) (fun _ _ => ClickFails) resolve
    (fun _ => true) (fun _ => true) (fun _ => true) (fun _ => true)
    (fun b => "https://acct.blob.core.windows.net/evidence/" ++ b) "/tmp"
    (fun _ => None) (fun _ => true) (fun _ => true).

Definition home_url : string :=
  "https://www.swoogo.com/loggedin/registrant/view?eventId=255274&id=12345".

Definition send_email_url : string :=
  "https://www.swoogo.com/loggedin/registrant/send-email?eventId=255274&id=12345&RegistrantEmailForm%5Btype%5D=4840855".

(** The Send Email page with a loaded preview frame and no link to itself. *)
Definition send_email_page : Page :=
  mkPage send_email_url send_email_url false [] [true] [] (FrameReady true)
    plain_element plain_element [] 0 true true.

Definition env_plain : Env :=
  env_of (site [blank_page home_url; send_email_page;
                blank_page "https://www.swoogo.com/loggedin/registrant/view?id=777"]).

End Ex.

Module Ex2.
Import Ex.

(** As [env_plain], but removing a directory fails (it is busy, say). *)
Definition env_rm_fails : Env :=
  mkEnv (goto_result env_plain) (actions_click env_plain) (menu_click env_plain)
    (new_URL env_plain) (zip_ok env_plain) (upload_ok env_plain)
    (unlink_ok env_plain) (fun _ => false) (blob_url env_plain) (tmpdir env_plain)
    (zip_leftover env_plain) (waitForTimeout_ok env_plain) (evaluate_ok env_plain).

End Ex2.

(** Console events that are not error lines. *)
Definition not_error (ev : LogEv) : Prop :=
  match ev with Err _ => False | _ => True end.

(** The line the runner prints for a registrant whose job threw. *)
Definition runner_error_line (u err : string) : LogEv :=
  Err ("  ✖ Error for " ++ u ++ " " ++ Str.nl ++ "    " ++ err).

Module Ex3.
Import Ex.

(** The registrant page with a visible link to the confirmation page. *)
Definition home_with_confirmation : Page :=
  mkPage home_url home_url true
    [Anchor "/loggedin/registrant/confirmation?id=12345" true]
    [] [] NotAttached plain_element plain_element [] 0 true true.

(** The site serves the registrant page only: the confirmation link is
    unreachable. *)
Definition env_confirmation_down : Env :=
  env_of (site [home_with_confirmation]).

End Ex3.

(** The first Send Email link or form of the page is visible: the test of
    the QR step. *)
Definition qr_link_visible (p : Page) : bool :=
  match List.find is_send_email_node (p_nodes p) with
  | Some n => node_visible n
  | None => false
  end.

(** What a computation printed: the console lines added by a run. *)
Definition emitted {A} (m : M A) (w : World) : list LogEv :=
  drop (List.length (w_log w)) (w_log (m w).2).

(** The files and the line of the confirmation capture. *)
Definition email_png (dir bn : string) : string :=
  Str.path_join dir (bn ++ "__05_Confirmation_email.png").

Definition full_png (dir bn : string) : string :=
  Str.path_join dir (bn ++ "__05_Confirmation_full.png").

Definition ok_line : LogEv := Info "  ✔ 05_Confirmation_email.png".

(** No frame body could be shot: there is no iframe, or the shot of the
    first one failed. *)
Definition no_frame_shot (p : Page) : Prop := head (p_iframes p) <> Some true.

Module Ex4.
Import Ex.

(** A confirmation page that has both an embedded frame and an element
    matched by the e-mail candidate selectors. *)
Definition confirmation_page : Page :=
  mkPage "https://www.swoogo.com/loggedin/registrant/confirmation?id=12345"
    "https://www.swoogo.com/loggedin/registrant/confirmation?id=12345"
    false [] [true] [mkCand ".email-body" true] NotAttached
    plain_element plain_element [] 0 true true.

Definition on_confirmation_page : World :=
  mkWorld confirmation_page ∅ ∅ ∅ [].

End Ex4.

Module Ex5.
Import Ex.

(** The Send Email page is served, but its preview iframe never shows up. *)
Definition env_no_preview : Env :=
  env_of (site [blank_page home_url; blank_page send_email_url]).

Definition on_home_page : World :=
  mkWorld (blank_page home_url) (<["out/12345" := ∅]> ∅) ∅ ∅ [].

End Ex5.

(** The resolver as the specification words it: among the anchors, in
    document order, the first whose address contains one of the keywords,
    compared without regard to case. *)
Definition matches_keyword (keywords : list string) (href : string) : bool :=
  existsb (fun k => Str.includes (Str.toLowerCase href) (Str.toLowerCase k)) keywords.

Fixpoint first_match (keywords : list string) (nodes : list Node) : option string :=
  match nodes with
  | [] => None
  | Anchor href _ :: rest =>
      if matches_keyword keywords href then Some href else first_match keywords rest
  | Form _ _ :: rest => first_match keywords rest
  end.

Definition resolveHref_spec (env : Env) (p : Page) (keywords : list string)
    : option string :=
  (fun href => default href (new_URL env href (p_baseURI p)))
    <$> first_match keywords (p_nodes p).

Module Ex6.
Import Ex.

(** Two visible links: the first spells the keyword with a capital. *)
Definition two_invoice_links : Page :=
  mkPage home_url home_url false
    [Anchor "/loggedin/registrant/Invoice?id=12345" true;
     Anchor "/loggedin/invoice/help" true]
    [] [] NotAttached plain_element plain_element [] 0 true true.

Definition on_two_links : World := mkWorld two_invoice_links ∅ ∅ ∅ [].

End Ex6.



Module Ex8.
Import Ex.

(** A page whose body carries [overflow: hidden] inline and that has one
    scrolling box declared as [height: 300px; overflow-y: auto]. *)
Definition body_hidden : Element :=
  mkElement (mkStyle "" "" "hidden" "hidden") inline_or_visible 0 0 None.

Definition scroll_box : Element :=
  mkElement (mkStyle "300px" "" "" "auto") inline_or_visible 900 300 None.

Definition page : Page :=
  mkPage home_url home_url false [] [] [] NotAttached
    plain_element body_hidden [scroll_box] 0 true true.

Definition world : World := mkWorld page ∅ ∅ ∅ [].

End Ex8.

Module Ex9.
Import Ex.


Definition good_settings : ProcessEnv :=
  mkProcessEnv "DefaultEndpointsProtocol=https;AccountName=acct" "swoogo-evidence" "".

Definition args : Args :=
  mkArgs (Some "registration.csv") None (Some "out") false false "255274".

Definition row : Row := mkRow "" "" "12345" "" "" "" "" "" "" "".

Definition csv (fp : string) : option (list Row) :=
  if String.eqb fp "registration.csv" then Some [row] else None.

(** A storage library that accepts everything it is given. *)
Definition lenient_sdk : BlobSdk :=
  mkBlobSdk (fun _ => None) (fun _ => None) (fun _ _ => None).

(** A machine on which everything outside the pages works. *)
Definition host : Host := mkHost lenient_sdk csv (fun _ => true) true (fun _ => true).

End Ex9.

Module Ex7.
Import Ex.

Definition invoice_url : string :=
  "https://www.swoogo.com/loggedin/registrant/invoice?id=12345".

Definition invoice_page : Page := blank_page invoice_url.

(** The registrant page with a visible invoice link. *)
Definition home_with_link : Page :=
  mkPage home_url home_url true [Anchor "/loggedin/registrant/invoice?id=12345" true]
    [] [] NotAttached plain_element plain_element [] 0 true true.

(** The registrant page with the Actions button and no link. *)
Definition home_with_menu : Page :=
  mkPage home_url home_url true [] [] [] NotAttached
    plain_element plain_element [] 0 true true.

(** The Invoice menu item navigates to the invoice page. *)
Definition env_menu : Env :=
  mkEnv (site [home_with_menu; home_with_link; invoice_page]) (fun p => Some p)
    (fun label _ => if String.eqb label "invoice" then Navigates invoice_page else ClickFails)
    resolve (fun _ => true) (fun _ => true) (fun _ => true) (fun _ => true)
    (fun b => "https://acct.blob.core.windows.net/evidence/" ++ b) "/tmp"
    (fun _ => None) (fun _ => true) (fun _ => true).

End Ex7.


(** ** Command line *)

(** [s.split(c)] for a one-character separator. *)
Fixpoint split_on (c : ascii) (s : string) : list string :=
  match s with
  | EmptyString => [EmptyString]
  | String a r =>
      if Ascii.eqb a c then EmptyString :: split_on c r
      else match split_on c r with
           | x :: xs => String a x :: xs
           | [] => [String a EmptyString]
           end
  end.

Section ParseArgs.

(** JavaScript numbers are kept abstract: [Number] converts a string,
    [num_lit] is a literal, [num_truthy] is the test [if (n)]. *)
Variable Num : Type.
Variable Number : string -> Num.
Variable num_lit : nat -> Num.
Variable num_truthy : Num -> bool.

(** The object [out] of [parseArgs]; [None] is [null] or [undefined]. *)
Record Parsed := mkParsed {
  pa_in : option string;
  pa_auth : option string;
  pa_outDir : option string;
  pa_delay : Num;
  pa_viewport : Num * Num;
  pa_saveSession : bool;
  pa_pdf : bool;
  pa_eventId : string
}.

Definition parsed_default : Parsed :=
  mkParsed None None (Some "out") (num_lit 300) (num_lit 1600, num_lit 1200)
    false false "".

(** The options that read [args[++i]]. *)
Definition value_flag (a : string) : bool :=
  existsb (String.eqb a) ["--in"; "--auth"; "--out"; "--delay"; "--viewport"; "--eventId"].

(** The branches of [parseArgs] that read [args[++i]], here [v]. *)
Definition set_value (a : string) (v : option string) (out : Parsed) : Parsed :=
  if String.eqb a "--in" then
    mkParsed v (pa_auth out) (pa_outDir out) (pa_delay out) (pa_viewport out)
      (pa_saveSession out) (pa_pdf out) (pa_eventId out)
  else if String.eqb a "--auth" then
    mkParsed (pa_in out) v (pa_outDir out) (pa_delay out) (pa_viewport out)
      (pa_saveSession out) (pa_pdf out) (pa_eventId out)
  else if String.eqb a "--out" then
    mkParsed (pa_in out) (pa_auth out) v (pa_delay out) (pa_viewport out)
      (pa_saveSession out) (pa_pdf out) (pa_eventId out)
  else if String.eqb a "--delay" then
    mkParsed (pa_in out) (pa_auth out) (pa_outDir out)
      (match truthy v with Some x => Number x | None => pa_delay out end)
      (pa_viewport out) (pa_saveSession out) (pa_pdf out) (pa_eventId out)
  else if String.eqb a "--viewport" then
    let parts := split_on "x" (default "" (truthy v)) in
    match parts with
    | sw :: sh :: _ =>
        if num_truthy (Number sw) && num_truthy (Number sh) then
          mkParsed (pa_in out) (pa_auth out) (pa_outDir out) (pa_delay out)
            (Number sw, Number sh) (pa_saveSession out) (pa_pdf out) (pa_eventId out)
        else out
    | _ => out
    end
  else if String.eqb a "--eventId" then
    mkParsed (pa_in out) (pa_auth out) (pa_outDir out) (pa_delay out) (pa_viewport out)
      (pa_saveSession out) (pa_pdf out) (Str.trim (default "" (truthy v)))
  else out.

(** The branches that read nothing more; any other argument is ignored. *)
Definition set_switch (a : string) (out : Parsed) : Parsed :=
  if String.eqb a "--save-session" then
    mkParsed (pa_in out) (pa_auth out) (pa_outDir out) (pa_delay out) (pa_viewport out)
      true (pa_pdf out) (pa_eventId out)
  else if String.eqb a "--pdf" then
    mkParsed (pa_in out) (pa_auth out) (pa_outDir out) (pa_delay out) (pa_viewport out)
      (pa_saveSession out) true (pa_eventId out)
  else out.

(** The loop of [parseArgs] from some position on. *)
Fixpoint parse_from (out : Parsed) (args : list string) : Parsed :=
  match args with
  | [] => out
  | a :: rest =>
      if value_flag a then
        match rest with
        | [] => set_value a None out
        | v :: rest' => parse_from (set_value a (Some v) out) rest'
        end
      else parse_from (set_switch a out) rest
  end.

(** [parseArgs()] on [process.argv.slice(2)]. *)
Definition parseArgs (argv : list string) : Parsed := parse_from parsed_default argv.

(** The argument list ends on an option that still waits for its value. *)
Fixpoint awaits_value (args : list string) : bool :=
  match args with
  | [] => false
  | a :: rest =>
      if value_flag a then
        match rest with
        | [] => true
        | _ :: rest' => awaits_value rest'
        end
      else awaits_value rest
  end.

(** What the main function reads of the parsed arguments. *)
Definition args_of (a : Parsed) : Args :=
  mkArgs (pa_in a) (pa_auth a) (pa_outDir a) (pa_pdf a) (pa_saveSession a) (pa_eventId a).

(** The script from the command line on. *)
Definition script (env : Env) (host : Host) (pe : ProcessEnv) (argv : list string)
    (w : World) : nat * World :=
  main env host pe (args_of (parseArgs argv)) w.

End ParseArgs.

Arguments pa_in {Num} _.
Arguments pa_auth {Num} _.
Arguments pa_outDir {Num} _.
Arguments pa_delay {Num} _.
Arguments pa_viewport {Num} _.
Arguments pa_saveSession {Num} _.
Arguments pa_pdf {Num} _.
Arguments pa_eventId {Num} _.

(** ** The registrant name *)

(** [text.replace(/\s+/g, ' ')]: every run of white space becomes one
    blank. *)
Fixpoint collapse_spaces (s : string) : string :=
  match s with
  | EmptyString => EmptyString
  | String c r =>
      if Str.is_space c then
        match r with
        | String c' _ =>
            if Str.is_space c' then collapse_spaces r
            else String " " (collapse_spaces r)
        | EmptyString => String " " EmptyString
        end
      else String c (collapse_spaces r)
  end.

(** [extractRegistrantName(page)], on what the page answers for each
    candidate selector in turn: how many elements match and the text of
    the first ([None]: no text). *)
Fixpoint extractRegistrantName (candidates : list (nat * option string)) : string :=
  match candidates with
  | [] => "registrant"
  | (count, text) :: rest =>
      match count with
      | O => extractRegistrantName rest
      | S _ =>
          let t := Str.trim (collapse_spaces (default "" text)) in
          if Str.nonempty t then Str.safe t else extractRegistrantName rest
      end
  end.

Module ExArgs.

(** Decimal strings as numbers; anything else is not a number. *)
Fixpoint digits_value (acc : nat) (s : string) : option nat :=
  match s with
  | EmptyString => Some acc
  | String c r =>
      if Str.is_digit c then digits_value (10 * acc + (Str.code c - 48)) r else None
  end.

Definition number (s : string) : option nat :=
  match s with
  | EmptyString => Some 0
  | _ => digits_value 0 s
  end.

Definition number_truthy (n : option nat) : bool :=
  match n with Some (S _) => true | _ => false end.

Definition parse (argv : list string) : Parsed (option nat) :=
  parseArgs (option nat) number Some number_truthy argv.

End ExArgs.

(** ** More predicates for the properties *)

(** A string that does not begin with white space. *)
Definition no_lead (y : string) : Prop :=
  match y with
  | EmptyString => True
  | String c _ => Str.is_space c = false
  end.

(** A character that [safe] keeps. *)
Definition clean_char (c : ascii) : bool := negb (Str.unsafe_char c).

(** The three values [row_url] reads from a row: the explicit address,
    the registrant id and the event id in force. *)
Definition row_explicit_url (r : Row) : string :=
  Str.trim (or_else (col_registrant_url r) (or_else (col_RegistrantURL r) "")).

Definition row_id (r : Row) : string :=
  Str.trim (or_else (col_id r) (or_else (col_ID r) (or_else (col_Registrant_ID r)
    (or_else (col_registrantId r) (or_else (col_registrant_id r) ""))))).

Definition row_event (args : Args) (r : Row) : string :=
  or_else (Str.trim (arg_eventId args))
    (Str.trim (or_else (col_eventId r) (or_else (col_Event_ID r)
       (or_else (col_event_id r) "")))).

Definition not_sep (c : ascii) : bool := negb (Str.is_sep c).

(** The page on which [findActionHrefByUrlContains] searches: the page
    after the click on a visible Actions button, when opening is asked for
    and the click does not throw. *)
Definition page_after_actions (env : Env) (openActions : bool) (p : Page) : Page :=
  if openActions && p_actions p then default p (actions_click env p) else p.

(** Every anchor address is already in lower case. *)
Definition lowercase_hrefs (nodes : list Node) : Prop :=
  Forall (fun n => match n with
                   | Anchor h _ => Str.toLowerCase h = h
                   | Form _ _ => True
                   end) nodes.


(** The page once the side panel is hidden: one more style tag. *)
Definition with_hidden_panel (p : Page) : Page :=
  with_dom (p_html p) (p_body p) (p_elems p) (S (p_styleTags p)) p.

Module Ex14.
Import Ex.

(** A scrolling box that declares both overflow axes inline. *)
Definition both_axes_box : Element :=
  mkElement (mkStyle "300px" "" "hidden" "scroll") inline_or_visible 900 300 None.

Definition page : Page :=
  mkPage home_url home_url false [] [] [] NotAttached
    plain_element plain_element [both_axes_box; plain_element] 0 true false.

Definition world : World := mkWorld page ∅ ∅ ∅ [].

(** The same page when the screenshot fails. *)
Definition page_no_shot : Page :=
  mkPage home_url home_url false [] [] [] NotAttached
    plain_element plain_element [both_axes_box; plain_element] 0 false false.

Definition world_no_shot : World := mkWorld page_no_shot ∅ ∅ ∅ [].




End Ex14.

(** A candidate of [extractRegistrantName] that gives no name: nothing
    matches, or the text is white space only. *)
Definition no_name (c : nat * option string) : Prop :=
  c.1 = 0 \/ Str.all_chars Str.is_space (default "" c.2) = true.


(** One turn of the main loop: the job of one registrant inside its
    [try], with the line printed when it throws. *)
Definition one_registrant (env : Env) (u base : string) (pdf : bool) : M unit :=
  try_catch (processRegistrant env u base pdf)
    (fun err => console (runner_error_line u err)).

Module Ex22.
Import Ex.

(** The registrant page with a Send Email link whose host is malformed. *)
Definition bad_href : string :=
  "https://[/loggedin/registrant/send-email?id=12345".

Definition home_with_bad_link : Page :=
  mkPage home_url home_url false [Anchor bad_href true]
    [] [] NotAttached plain_element plain_element [] 0 true true.

Definition world : World := mkWorld home_with_bad_link ∅ ∅ ∅ [].

(** As [env_plain], with a resolver that refuses an unclosed bracket in
    the host. *)
Definition env_strict : Env :=
  mkEnv (goto_result env_plain) (actions_click env_plain) (menu_click env_plain)
    (fun href base => if Str.starts_with "https://[" href then None else resolve href base)
    (zip_ok env_plain) (upload_ok env_plain) (unlink_ok env_plain) (rm_ok env_plain)
    (blob_url env_plain) (tmpdir env_plain)
    (zip_leftover env_plain) (waitForTimeout_ok env_plain) (evaluate_ok env_plain).



End Ex22.

Module Ex18.
Import Ex.


End Ex18.

(** * Properties *)

(** ** Strings *)

Module StrFacts.
Import Str.

Lemma sapp_nil (r : string) : EmptyString ++ r = r.
Proof. reflexivity. Qed.

Lemma sapp_cons (a : ascii) (p r : string) : String a p ++ r = String a (p ++ r).
Proof. reflexivity. Qed.

Ltac sapp := rewrite ?sapp_cons, ?sapp_nil.

Lemma sapp_assoc (a b c : string) : (a ++ b) ++ c = a ++ (b ++ c).
Proof. induction a as [|x a IH]; sapp; [reflexivity | now rewrite IH]. Qed.

Lemma strip_prefix_app p s r : strip_prefix p s = Some r -> s = p ++ r.
Proof.
  revert s; induction p as [|a p IH]; intros [|b s]; simpl; sapp; try congruence.
  destruct (Ascii.eqb_spec a b) as [->|]; [|discriminate].
  intros Hs. f_equal. now apply IH.
Qed.

Lemma strip_prefix_self p r : strip_prefix p (p ++ r) = Some r.
Proof.
  induction p as [|a p IH]; sapp; simpl; [reflexivity|].
  now rewrite Ascii.eqb_refl.
Qed.

Lemma take_digits_head s c r : take_digits s = String c r ->
  exists rest, s = String c rest /\ is_digit c = true.
Proof.
  destruct s as [|d s]; simpl; [discriminate|].
  destruct (is_digit d) eqn:Hd; [|discriminate].
  intros [= -> _]. eauto.
Qed.

Lemma match_here_shape key s d :
  match_here key s = Some d -> has_query_digits key s.
Proof.
  destruct s as [|c r]; simpl; [discriminate|].
  destruct (is_sep c) eqn:Hc; [|discriminate].
  destruct (strip_prefix (key ++ "=") r) as [rest|] eqn:Hp; [|discriminate].
  destruct (take_digits rest) as [|d0 ds] eqn:Hd; [discriminate|].
  intros _. apply take_digits_head in Hd as (rest' & -> & Hdig).
  apply strip_prefix_app in Hp. subst r.
  exists EmptyString, c, d0, rest'. sapp.
  rewrite sapp_assoc. auto.
Qed.

Lemma exec_some_shape key s d :
  exec_query_digits key s = Some d -> has_query_digits key s.
Proof.
  induction s as [|c r IH].
  - simpl. discriminate.
  - cbn [exec_query_digits].
    destruct (match_here key (String c r)) as [d'|] eqn:Hm.
    + intros _. eapply match_here_shape; eauto.
    + intros Hr. destruct (IH Hr) as (pre & c0 & d0 & rest & -> & ? & ?).
      exists (String c pre), c0, d0, rest. auto.
Qed.

Lemma match_here_hit key c d rest :
  is_sep c = true -> is_digit d = true ->
  exists ds, match_here key (String c (key ++ "=" ++ String d rest)) = Some (String d ds).
Proof.
  intros Hc Hd. cbn [match_here]. rewrite Hc.
  rewrite <- sapp_assoc, strip_prefix_self.
  cbn [take_digits]. rewrite Hd. eauto.
Qed.

Lemma exec_hit key s : has_query_digits key s ->
  exists d, exec_query_digits key s = Some d.
Proof.
  intros (pre & c & d & rest & -> & Hc & Hd).
  induction pre as [|a pre IH].
  - destruct (match_here_hit key c d rest Hc Hd) as [ds Hm].
    rewrite (sapp_nil (String c _)).
    cbn [exec_query_digits]. rewrite Hm. eauto.
  - rewrite (sapp_cons a pre).
    cbn [exec_query_digits].
    destruct (match_here key _); eauto.
Qed.

Lemma exec_none_iff key s :
  exec_query_digits key s = None <-> ~ has_query_digits key s.
Proof.
  split.
  - intros Hn Hh. destruct (exec_hit key s Hh) as [d Hd]. congruence.
  - intros Hn. destruct (exec_query_digits key s) eqn:He; [|reflexivity].
    exfalso. eauto using exec_some_shape.
Qed.

Lemma all_chars_app P a b :
  all_chars P (a ++ b) = all_chars P a && all_chars P b.
Proof.
  induction a as [|c a IH]; sapp; simpl; [reflexivity|].
  now rewrite IH, andb_assoc.
Qed.

Lemma split_last_none s : all_chars not_slash s = true -> split_last s = None.
Proof.
  induction s as [|c r IH]; simpl; [reflexivity|].
  intros [Hc Hr]%andb_prop. rewrite (IH Hr).
  unfold not_slash in Hc. now destruct (Ascii.eqb c "/").
Qed.

Lemma split_last_join d n :
  all_chars not_slash n = true -> split_last (path_join d n) = Some (d, n).
Proof.
  intros Hn. unfold path_join. change ("/" ++ n) with (String "/" n).
  induction d as [|c d IH]; sapp; simpl.
  - now rewrite (split_last_none n Hn).
  - now rewrite IH.
Qed.

Lemma dirname_join d n : all_chars not_slash n = true -> dirname (path_join d n) = d.
Proof. intros Hn. unfold dirname. now rewrite split_last_join. Qed.

Lemma basename_join d n : all_chars not_slash n = true -> basename (path_join d n) = n.
Proof. intros Hn. unfold basename. now rewrite split_last_join. Qed.

Lemma path_join_app d n x : path_join d n ++ x = path_join d (n ++ x).
Proof.
  unfold path_join. now rewrite !sapp_assoc.
Qed.

Lemma all_chars_trim_start P s :
  all_chars P s = true -> all_chars P (trim_start s) = true.
Proof.
  induction s as [|c r IH]; simpl; [auto|].
  intros H. pose proof H as [Hc Hr]%andb_prop.
  destruct (is_space c); simpl; auto.
Qed.

Lemma all_chars_trim_end P s :
  all_chars P s = true -> all_chars P (trim_end s) = true.
Proof.
  induction s as [|c r IH]; simpl; [auto|].
  intros [Hc Hr]%andb_prop. specialize (IH Hr).
  destruct (trim_end r) as [|c' r'].
  - destruct (is_space c); simpl; [reflexivity|]. now rewrite Hc.
  - simpl in *. now rewrite Hc, IH.
Qed.

Lemma replace_unsafe_no_slash s : all_chars not_slash (replace_unsafe s) = true.
Proof.
  induction s as [|c r IH]; simpl; [reflexivity|].
  rewrite IH, andb_true_r.
  destruct (unsafe_char c) eqn:Hu; [reflexivity|].
  unfold not_slash. destruct (Ascii.eqb_spec c "/") as [->|]; [|reflexivity].
  discriminate Hu.
Qed.

Lemma safe_no_slash s : all_chars not_slash (safe s) = true.
Proof.
  unfold safe, trim.
  apply all_chars_trim_end, all_chars_trim_start, replace_unsafe_no_slash.
Qed.

End StrFacts.

(** ** Running the monad *)

Lemma bind_ok {A B} (m : M A) (k : A -> M B) w b w' :
  bind m k w = (Ok b, w') ->
  exists a w1, m w = (Ok a, w1) /\ k a w1 = (Ok b, w').
Proof.
  unfold bind. destruct (m w) as [[a|e] w1]; [eauto | discriminate].
Qed.

Lemma bind_throw {A B} (m : M A) (k : A -> M B) w e w' :
  bind m k w = (Throw e, w') ->
  m w = (Throw e, w') \/ exists a w1, m w = (Ok a, w1) /\ k a w1 = (Throw e, w').
Proof.
  unfold bind. destruct (m w) as [[a|e0] w1]; [eauto | intros [= -> ->]; auto].
Qed.

Lemma bind_run_ok {A B} (m : M A) (k : A -> M B) w a w1 :
  m w = (Ok a, w1) -> bind m k w = k a w1.
Proof. unfold bind. now intros ->. Qed.

Lemma bind_run_throw {A B} (m : M A) (k : A -> M B) w e w1 :
  m w = (Throw e, w1) -> bind m k w = (Throw e, w1).
Proof. unfold bind. now intros ->. Qed.

(** ** Frames: what a piece of the script leaves alone *)

Section Frames.

Variable P : LogEv -> Prop.
Variable D : string.

Lemma ext_refl w : ext P D w w.
Proof.
  split; eauto.
  exists []. now rewrite app_nil_r.
Qed.

Lemma ext_trans w1 w2 w3 : ext P D w1 w2 -> ext P D w2 w3 -> ext P D w1 w3.
Proof.
  intros [F1 N1 Z1 B1 (d1 & L1 & P1)] [F2 N2 Z2 B2 (d2 & L2 & P2)].
  split.
  - intros d m Hm. destruct (F1 d m Hm) as (m1 & Hm1 & S1).
    destruct (F2 d m1 Hm1) as (m2 & Hm2 & S2).
    exists m2. split; [done | set_solver].
  - intros d Hd. destruct (N2 d Hd) as [H2 | ->]; [|now right].
    apply N1, H2.
  - congruence.
  - congruence.
  - exists (d1 ++ d2)%list. split.
    + now rewrite L2, L1, app_assoc.
    + now apply Forall_app.
Qed.

Lemma stable_ret {A} (a : A) : Stable P D (ret a).
Proof. intros w. apply ext_refl. Qed.

Lemma stable_throw {A} e : Stable P D (@throw A e).
Proof. intros w. apply ext_refl. Qed.

Lemma stable_get_page : Stable P D get_page.
Proof. intros w. apply ext_refl. Qed.

Lemma stable_set_page p : Stable P D (set_page p).
Proof.
  intros w. split; simpl; eauto.
  exists []. now rewrite app_nil_r.
Qed.

Lemma stable_console ev : P ev -> Stable P D (console ev).
Proof.
  intros Hev w. split; simpl; eauto.
Qed.

Lemma stable_write_file path c : Str.dirname path = D -> Stable P D (write_file path c).
Proof.
  intros Hd w. split; simpl; eauto.
  - intros d m Hm. rewrite Hd.
    destruct (decide (D = d)) as [->|Hne].
    + rewrite lookup_insert_eq, Hm. simpl.
      eexists; split; [done|]. rewrite dom_insert_L. set_solver.
    + rewrite lookup_insert_ne by done. eauto.
  - intros d. rewrite Hd.
    destruct (decide (D = d)) as [->|Hne]; [now right|].
    rewrite lookup_insert_ne by done. now left.
  - exists []. now rewrite app_nil_r.
Qed.

Lemma stable_mkdirSync : Stable P D (mkdirSync D).
Proof.
  intros w. split; simpl; eauto.
  - intros d m Hm. destruct (w_fs w !! D) eqn:HD; [eauto|].
    destruct (decide (D = d)) as [->|Hne]; [congruence|].
    rewrite lookup_insert_ne by done. eauto.
  - intros d. destruct (w_fs w !! D) eqn:HD; [now left|].
    destruct (decide (D = d)) as [->|Hne]; [now right|].
    rewrite lookup_insert_ne by done. now left.
  - exists []. now rewrite app_nil_r.
Qed.

Lemma stable_bind {A B} (m : M A) (k : A -> M B) :
  Stable P D m -> (forall a, Stable P D (k a)) -> Stable P D (bind m k).
Proof.
  intros Hm Hk w. unfold bind. specialize (Hm w).
  destruct (m w) as [[a|e] w1]; simpl in *; [|done].
  eapply ext_trans; [exact Hm | apply Hk].
Qed.

Lemma stable_try {A} (m : M A) (hd : string -> M A) :
  Stable P D m -> (forall e, Stable P D (hd e)) -> Stable P D (try_catch m hd).
Proof.
  intros Hm Hh w. unfold try_catch. specialize (Hm w).
  destruct (m w) as [[a|e] w1]; simpl in *; [done|].
  eapply ext_trans; [exact Hm | apply Hh].
Qed.

Lemma stable_on_page {A} p (m : M A) : Stable P D m -> Stable P D (on_page p m).
Proof.
  intros Hm w. unfold on_page.
  specialize (Hm (mkWorld p (w_fs w) (w_zips w) (w_blobs w) (w_log w))).
  destruct (m _) as [r w1]. simpl in *.
  destruct Hm as [F N Z B L]. split; simpl in *; auto.
Qed.

End Frames.

Lemma ext_weaken (P Q : LogEv -> Prop) D w w' :
  (forall ev, P ev -> Q ev) -> ext P D w w' -> ext Q D w w'.
Proof.
  intros HPQ [F N Z B (d & L & HP)]. split; auto.
  exists d. split; [done|]. eapply Forall_impl; eauto.
Qed.

Lemma stable_weaken (P Q : LogEv -> Prop) D {A} (m : M A) :
  (forall ev, P ev -> Q ev) -> Stable P D m -> Stable Q D m.
Proof. intros HPQ Hm w. eapply ext_weaken; eauto. Qed.

Ltac stable_step :=
  match goal with
  | |- Stable _ _ (bind _ _) => apply stable_bind; [|intros]
  | |- Stable _ _ (try_catch _ _) => apply stable_try; [|intros]
  | |- Stable _ _ (on_page _ _) => apply stable_on_page
  | |- Stable _ _ (ret _) => apply stable_ret
  | |- Stable _ _ (throw _) => apply stable_throw
  | |- Stable _ _ get_page => apply stable_get_page
  | |- Stable _ _ (set_page _) => apply stable_set_page
  | |- Stable _ _ (console _) => apply stable_console
  | |- Stable _ _ (write_file _ _) => apply stable_write_file
  | |- Stable _ _ (mkdirSync _) => apply stable_mkdirSync
  | |- Stable _ _ (match ?x with _ => _ end) => destruct x
  end.

Ltac stable := repeat stable_step; eauto.

(** ** The name of the full-page fallback *)

Module PngFacts.
Import Str StrFacts.

Lemma app_cpng_ne x c : x ++ String c "png" <> "png".
Proof.
  destruct x as [|a [|b [|d [|e x]]]]; rewrite ?sapp_cons, ?sapp_nil; intros [=].
Qed.

Lemma eqb_app_cpng x c : String.eqb (x ++ String c "png") "png" = false.
Proof. apply String.eqb_neq, app_cpng_ne. Qed.

Lemma ascii_not_cont c : is_ascii c = true -> is_cont c = false.
Proof.
  unfold is_ascii, is_cont. intros H%Nat.ltb_lt.
  destruct (128 <=? code c)%nat eqn:E; [|reflexivity].
  apply Nat.leb_le in E. lia.
Qed.


Ltac absorb := repeat (rewrite ?andb_false_r; cbn [andb]); try reflexivity.

(** An ASCII character before the final [png] is the only place where the
    pattern can match. *)
Lemma no_match_before a y c :
  is_ascii c = true ->
  unit_then_png (String a (y ++ String c "png")) = false
  /\ pair_then_png (String a (y ++ String c "png")) = false.
Proof.
  intros Hc. pose proof (ascii_not_cont c Hc) as Hn. split.
  - unfold unit_then_png.
    destruct (is_ascii a); [rewrite eqb_app_cpng; absorb|].
    destruct (is_lead2 a).
    { destruct y as [|y0 y]; sapp; [rewrite Hn | rewrite eqb_app_cpng]; absorb. }
    destruct (is_lead3 a); [|reflexivity].
    destruct y as [|y0 [|y1 y]]; sapp; cbv iota; rewrite ?Hn, ?eqb_app_cpng; absorb.
  - unfold pair_then_png.
    destruct y as [|y0 [|y1 [|y2 y]]]; sapp; cbv iota; rewrite ?Hn, ?eqb_app_cpng; absorb.
Qed.

Lemma replace_ascii_png x c :
  is_ascii c = true -> is_eol c = false ->
  replace_png_suffix (x ++ String c "png") = x ++ "__full.png".
Proof.
  intros Hc He. induction x as [|a x IH]; sapp.
  - cbn [replace_png_suffix]. unfold unit_then_png. now rewrite Hc, He.
  - cbn [replace_png_suffix].
    destruct (no_match_before a x c Hc) as [-> ->]. now rewrite IH.
Qed.


End PngFacts.

(** ** Frames of the script's functions *)

Module Frame.
Import Str StrFacts.

Lemma replace_png_dot x : replace_png_suffix (x ++ ".png") = x ++ "__full.png".
Proof. now apply PngFacts.replace_ascii_png. Qed.

Ltac in_dir :=
  rewrite ?replace_png_dot, ?path_join_app;
  apply dirname_join; rewrite ?all_chars_app;
  repeat (apply andb_true_intro; split); (assumption || reflexivity).

Section WithEnv.

Variable env : Env.
Variable P : LogEv -> Prop.
Variable D : string.
Hypothesis P_info : forall s, P (Info s).

Lemma goto_stable url : Stable P D (goto env url).
Proof. unfold goto. stable. Qed.

Lemma hideLeftPanel_stable : Stable P D hideLeftPanel.
Proof. unfold hideLeftPanel. stable. Qed.

Lemma expand_stable : Stable P D expandScrollableContainers.
Proof. unfold expandScrollableContainers. stable. Qed.

Lemma restore_stable : Stable P D restoreScrollableContainers.
Proof. unfold restoreScrollableContainers. stable. Qed.

Lemma page_screenshot_stable path :
  dirname path = D -> Stable P D (page_screenshot path).
Proof. intros. unfold page_screenshot. stable. Qed.

Lemma page_pdf_stable path :
  dirname path = D -> Stable P D (page_pdf_quiet path).
Proof. intros. unfold page_pdf_quiet. stable. Qed.

Lemma captureFullPage_stable name pdf :
  all_chars not_slash name = true ->
  Stable P D (captureFullPage (path_join D name) pdf).
Proof.
  intros Hn. unfold captureFullPage.
  pose proof hideLeftPanel_stable. pose proof expand_stable.
  pose proof restore_stable.
  assert (dirname (path_join D name ++ ".png") = D) as Hpng by in_dir.
  assert (dirname (path_join D name ++ ".pdf") = D) as Hpdf by in_dir.
  pose proof (page_screenshot_stable _ Hpng).
  pose proof (page_pdf_stable _ Hpdf).
  stable.
Qed.

Lemma captureConfirmationEmail_stable baseName :
  all_chars not_slash baseName = true ->
  P warn_confirmation_full ->
  Stable P D (captureConfirmationEmail D baseName).
Proof.
  intros Hn Hw. unfold captureConfirmationEmail.
  assert (dirname (path_join D (baseName ++ "__05_Confirmation_email.png")) = D) by in_dir.
  assert (dirname (path_join D (baseName ++ "__05_Confirmation_full.png")) = D) as Hfull by in_dir.
  pose proof (page_screenshot_stable _ Hfull).
  stable.
Qed.

Lemma openActionsMenu_stable : Stable P D (openActionsMenu env).
Proof. unfold openActionsMenu. stable. Qed.

Lemma findActionHref_stable needles b :
  Stable P D (findActionHrefByUrlContains env needles b).
Proof. unfold findActionHrefByUrlContains. stable. Qed.

Lemma new_URL_string_stable href base : Stable P D (new_URL_string env href base).
Proof. unfold new_URL_string. stable. Qed.

Lemma getSendEmailHref_stable url : Stable P D (getSendEmailHref env url).
Proof.
  unfold getSendEmailHref.
  pose proof new_URL_string_stable. stable.
Qed.

Lemma captureIframeBySrc_stable kw name :
  all_chars not_slash name = true ->
  P warn_frame_full ->
  Stable P D (captureIframeBySrc kw (path_join D (name ++ ".png"))).
Proof.
  intros Hn Hw. unfold captureIframeBySrc.
  assert (dirname (path_join D (name ++ ".png")) = D) by in_dir.
  assert (dirname (replace_png_suffix (path_join D (name ++ ".png"))) = D) as Hfull.
  { rewrite <- path_join_app. in_dir. }
  pose proof (page_screenshot_stable _ Hfull).
  stable.
Qed.

Lemma click_fallback_stable label capture :
  Stable P D capture -> Stable P D (click_fallback env label capture).
Proof.
  intros Hc. unfold click_fallback.
  pose proof openActionsMenu_stable. stable.
Qed.

Lemma confirmationStep_stable baseName href :
  all_chars not_slash baseName = true ->
  P warn_confirmation_full ->
  (truthy href = None -> P warn_confirmation_click) ->
  Stable P D (confirmationStep env D baseName href).
Proof.
  intros Hn Hf Hc. unfold confirmationStep, waitForSpinnerGone_quiet.
  pose proof goto_stable.
  pose proof (captureConfirmationEmail_stable _ Hn Hf).
  pose proof (click_fallback_stable "confirmation" _ ltac:(eassumption)).
  destruct (truthy href) eqn:Ht; [|specialize (Hc eq_refl)]; stable.
Qed.

Lemma invoiceStep_stable baseName pdf href :
  all_chars not_slash baseName = true ->
  (truthy href = None -> P warn_invoice_click) ->
  Stable P D (invoiceStep env D baseName pdf href).
Proof.
  intros Hn Hc. unfold invoiceStep, waitForSpinnerGone_quiet. cbv zeta.
  pose proof goto_stable.
  assert (all_chars not_slash (baseName ++ "__06_Invoice") = true)
    by (rewrite all_chars_app, Hn; reflexivity).
  pose proof (captureFullPage_stable _ pdf ltac:(eassumption)).
  pose proof (click_fallback_stable "invoice" _ ltac:(eassumption)).
  destruct (truthy href) eqn:Ht; [|specialize (Hc eq_refl)]; stable.
Qed.

Lemma ticketEmailStep_stable url baseName :
  all_chars not_slash baseName = true ->
  P warn_frame_full ->
  (forall s, P (Warn ("  ⚠ Email iframe not found; saved full page instead" ++ s))) ->
  (forall s, P (Warn ("  ⚠ Could not capture Ticket Email Preview: " ++ s))) ->
  Stable P D (ticketEmailStep env url D baseName).
Proof.
  intros Hn Hw H1 H2. unfold ticketEmailStep.
  pose proof goto_stable. pose proof getSendEmailHref_stable.
  assert (all_chars not_slash (baseName ++ "__03_Ticket_Email_Preview") = true)
    by (rewrite all_chars_app, Hn; reflexivity).
  pose proof (captureIframeBySrc_stable "/frontend/preview/email" _
                ltac:(eassumption) Hw) as Hi.
  rewrite sapp_assoc in Hi.
  pose proof (H1 EmptyString).
  stable.
Qed.

Lemma qrStep_stable baseName pdf :
  all_chars not_slash baseName = true ->
  Stable P D (qrStep env D baseName pdf).
Proof.
  intros Hn. unfold qrStep.
  pose proof goto_stable. pose proof new_URL_string_stable.
  assert (all_chars not_slash (baseName ++ "__04_QR_Code_Ticket_Email") = true)
    by (rewrite all_chars_app, Hn; reflexivity).
  pose proof (captureFullPage_stable _ pdf ltac:(eassumption)).
  stable.
Qed.

End WithEnv.

End Frame.

(** ** The evidence pass *)

Tactic Notation "peel" hyp(H) "as" ident(a) ident(w) ident(Hm) :=
  apply bind_ok in H as (a & w & Hm & H);
  lazymatch type of a with unit => destruct a | _ => idtac end.


Module Evidence.
Import Str StrFacts Frame.

Lemma ext_has_file P D w w' dir name :
  ext P D w w' -> has_file w dir name -> has_file w' dir name.
Proof.
  intros [F _ _ _ _] (files & Hf & Hn).
  destruct (F dir files Hf) as (m' & Hm' & Hsub).
  exists m'. split; [done|].
  apply elem_of_dom. apply Hsub. now apply elem_of_dom.
Qed.

Lemma write_file_has_file dir name c w :
  all_chars not_slash name = true ->
  has_file (write_file (path_join dir name) c w).2 dir name.
Proof.
  intros Hn. unfold write_file, has_file. simpl.
  rewrite dirname_join, basename_join by done.
  eexists. rewrite lookup_insert_eq. split; [done|].
  rewrite lookup_insert_eq. eauto.
Qed.

Section WithEnv.

Variable env : Env.

Lemma captureFullPage_written D name pdf w w' :
  all_chars not_slash name = true ->
  captureFullPage (path_join D name) pdf w = (Ok tt, w') ->
  has_file w' D (name ++ ".png").
Proof.
  intros Hn H. unfold captureFullPage in H.
  peel H as u1 w1 H1. peel H as u2 w2 H2. peel H as u3 w3 H3.
  assert (has_file w3 D (name ++ ".png")) as Hfile.
  { unfold page_screenshot in H3. peel H3 as p wp Hp.
    destruct (p_shot p); [|discriminate].
    rewrite path_join_app in H3.
    pose proof (write_file_has_file D (name ++ ".png") (FullPageImg (p_url p)) wp) as Hw.
    rewrite H3 in Hw. apply Hw.
    rewrite all_chars_app, Hn. reflexivity. }
  eapply (ext_has_file any_event D w3 w'); [|exact Hfile].
  lazymatch type of H with
  | ?m w3 = _ => assert (Stable any_event D m) as Hs; [|specialize (Hs w3); now rewrite H in Hs]
  end.
  assert (dirname (path_join D name ++ ".pdf") = D) as Hpdf by in_dir.
  pose proof (restore_stable any_event D).
  pose proof (page_pdf_stable any_event D _ Hpdf).
  stable; done.
Qed.

Lemma captureEvidence_stable P url base pdf :
  (forall s, P (Info s)) -> (forall s, P (Warn s)) ->
  Stable P (regDir_of base url) (captureEvidence env url base pdf).
Proof.
  intros Pi Pw.
  unfold captureEvidence, regDir_of. cbv zeta.
  set (D := path_join base (regId_of url)).
  pose proof (safe_no_slash (regId_of url)) as Hs.
  assert (forall s, all_chars not_slash (safe (regId_of url) ++ s) = all_chars not_slash s) as Hlit
    by (intros s; now rewrite all_chars_app, Hs).
  pose proof (goto_stable env P D).
  pose proof (captureFullPage_stable P D Pi
                (safe (regId_of url) ++ "__01_Attendance_Status_Proof") pdf
                ltac:(now rewrite Hlit)).
  pose proof (captureFullPage_stable P D Pi
                (safe (regId_of url) ++ "__02_Contact_Details") pdf
                ltac:(now rewrite Hlit)).
  pose proof (findActionHref_stable env P D).
  pose proof (fun href => confirmationStep_stable env P D Pi _ href
                Hs (Pw _) (fun _ => Pw _)).
  pose proof (fun href => invoiceStep_stable env P D Pi _ pdf href
                Hs (fun _ => Pw _)).
  pose proof (ticketEmailStep_stable env P D Pi url _ Hs (Pw _)
                (fun _ => Pw _) (fun _ => Pw _)).
  pose proof (qrStep_stable env P D Pi _ pdf Hs).
  stable; done.
Qed.

End WithEnv.

End Evidence.

(** ** Naming of the folder and of the archive *)

Example exec_id :
  Str.exec_query_digits "id" Ex.home_url = Some "12345".
Proof. reflexivity. Qed.

Example exec_eventId :
  Str.exec_query_digits "eventId" Ex.home_url = Some "255274".
Proof. reflexivity. Qed.

Example exec_no_digits :
  Str.exec_query_digits "id" "https://www.swoogo.com/r?uid=7&id=abc" = None.
Proof. reflexivity. Qed.

Example safe_id : Str.safe "12345" = "12345".
Proof. reflexivity. Qed.

Example png_suffix :
  Str.replace_png_suffix "out/7/7__03_Ticket_Email_Preview.png"
  = "out/7/7__03_Ticket_Email_Preview__full.png".
Proof. reflexivity. Qed.

Example encode_ex : Str.encodeURIComponent "a b&c" = "a%20b%26c".
Proof. reflexivity. Qed.

(** C10.  When the registrant address has no [id] parameter made of
    digits (no match of the pattern [[?&]id=(\d+)]), the folder name and the
    archive key are the literal [unknown] and [unknown.zip]; two such
    registrants therefore get the same folder and the same blob name. *)
Theorem C10_unknown_id_shared_names (base u1 u2 : string) :
  ~ has_query_digits "id" u1 ->
  ~ has_query_digits "id" u2 ->
  regId_of u1 = "unknown"
  /\ regDir_of base u1 = Str.path_join base "unknown"
  /\ blobName_of u1 = "unknown.zip"
  /\ regDir_of base u1 = regDir_of base u2
  /\ blobName_of u1 = blobName_of u2.
Proof.
  intros H1%StrFacts.exec_none_iff H2%StrFacts.exec_none_iff.
  unfold regDir_of, blobName_of, regId_of. rewrite H1, H2. simpl.
  repeat split; reflexivity.
Qed.

Lemma C10_witness :
  regId_of "https://www.swoogo.com/loggedin/registrant/view?eventId=255274" = "unknown"
  /\ regDir_of "out" "https://www.swoogo.com/loggedin/registrant/view?eventId=255274"
     = Str.path_join "out" "unknown"
  /\ blobName_of "https://www.swoogo.com/loggedin/registrant/view?eventId=255274"
     = "unknown.zip"
  /\ regDir_of "out" "https://www.swoogo.com/loggedin/registrant/view?eventId=255274"
     = regDir_of "out" "https://www.swoogo.com/r?uid=7&id=abc"
  /\ blobName_of "https://www.swoogo.com/loggedin/registrant/view?eventId=255274"
     = blobName_of "https://www.swoogo.com/r?uid=7&id=abc".
Proof.
  apply (C10_unknown_id_shared_names "out"
           "https://www.swoogo.com/loggedin/registrant/view?eventId=255274"
           "https://www.swoogo.com/r?uid=7&id=abc");
    apply StrFacts.exec_none_iff; reflexivity.
Defined.

Lemma captureEvidence_writes_01_02
    (env : Env) (url base : string) (pdf : bool) (w w' : World) :
  captureEvidence env url base pdf w = (Ok tt, w') ->
  has_file w' (regDir_of base url)
    (Str.safe (regId_of url) ++ "__01_Attendance_Status_Proof.png")
  /\ has_file w' (regDir_of base url)
    (Str.safe (regId_of url) ++ "__02_Contact_Details.png").
Proof.
  intros H. unfold captureEvidence in H. cbv zeta in H.
  fold (regDir_of base url) in H.
  set (D := regDir_of base url) in *.
  pose proof (StrFacts.safe_no_slash (regId_of url)) as Hs.
  assert (forall s, Str.all_chars Str.not_slash (Str.safe (regId_of url) ++ s)
                    = Str.all_chars Str.not_slash s) as Hlit
    by (intros s; now rewrite StrFacts.all_chars_app, Hs).
  peel H as u1 w1 H1. peel H as u2 w2 H2.
  peel H as u3 w3 H3. peel H as u4 w4 H4.
  apply Evidence.captureFullPage_written in H4; [|now rewrite Hlit].
  rewrite StrFacts.sapp_assoc in H4.
  pose proof H as Hrest.
  peel H as u5 w5 H5.
  apply Evidence.captureFullPage_written in H5; [|now rewrite Hlit].
  rewrite StrFacts.sapp_assoc in H5.
  assert (ext any_event D w4 w') as E1.
  { clear - Hrest Hs Hlit.
    lazymatch type of Hrest with
    | ?m w4 = _ => assert (Stable any_event D m) as Hst;
                   [|specialize (Hst w4); now rewrite Hrest in Hst]
    end.
    pose proof (Frame.captureFullPage_stable any_event D (fun _ => I)
                  (Str.safe (regId_of url) ++ "__02_Contact_Details") pdf
                  ltac:(now rewrite Hlit)).
    pose proof (Frame.findActionHref_stable env any_event D).
    pose proof (fun href => Frame.confirmationStep_stable env any_event D (fun _ => I) _ href
                  Hs I (fun _ => I)).
    pose proof (fun href => Frame.invoiceStep_stable env any_event D (fun _ => I) _ pdf href
                  Hs (fun _ => I)).
    pose proof (Frame.ticketEmailStep_stable env any_event D (fun _ => I) url _ Hs I
                  (fun _ => I) (fun _ => I)).
    pose proof (Frame.qrStep_stable env any_event D (fun _ => I) _ pdf Hs).
    stable; done. }
  assert (ext any_event D w5 w') as E2.
  { clear - H Hs Hlit.
    lazymatch type of H with
    | ?m w5 = _ => assert (Stable any_event D m) as Hst;
                   [|specialize (Hst w5); now rewrite H in Hst]
    end.
    pose proof (Frame.findActionHref_stable env any_event D).
    pose proof (fun href => Frame.confirmationStep_stable env any_event D (fun _ => I) _ href
                  Hs I (fun _ => I)).
    pose proof (fun href => Frame.invoiceStep_stable env any_event D (fun _ => I) _ pdf href
                  Hs (fun _ => I)).
    pose proof (Frame.ticketEmailStep_stable env any_event D (fun _ => I) url _ Hs I
                  (fun _ => I) (fun _ => I)).
    pose proof (Frame.qrStep_stable env any_event D (fun _ => I) _ pdf Hs).
    stable; done. }
  split.
  - eapply Evidence.ext_has_file; [exact E1 | exact H4].
  - eapply Evidence.ext_has_file; [exact E2 | exact H5].
Qed.

(** ** C1: which evidence files a completed pass leaves *)

(** C1, counterexample.  A registrant whose page shows no Actions menu and
    whose Send Email page has no link to itself: the pass completes with
    the attendance, contact and ticket e-mail files only (no QR, no
    confirmation, no invoice file).  A registrant address without an event
    id on a page without Send Email link: no ticket e-mail file either. *)
Lemma C1_counterexample :
  (let r := captureEvidence Ex.env_plain Ex.home_url "out" false Ex.empty_world in
   r.1 = Ok tt
   /\ evidence_present r.2 "out/12345" "__03_" = true
   /\ evidence_present r.2 "out/12345" "__04_" = false
   /\ evidence_present r.2 "out/12345" "__05_" = false
   /\ evidence_present r.2 "out/12345" "__06_" = false)
  /\
  (let r := captureEvidence Ex.env_plain
              "https://www.swoogo.com/loggedin/registrant/view?id=777"
              "out" false Ex.empty_world in
   r.1 = Ok tt
   /\ evidence_present r.2 "out/777" "__03_" = false
   /\ evidence_present r.2 "out/777" "__04_" = false).
Proof. vm_compute. repeat split; reflexivity. Qed.

Module BestEffort.

Section WithEnv.

Variable env : Env.

Lemma click_fallback_without_menu label capture w :
  p_actions (w_page w) = false ->
  click_fallback env label capture w = (Ok tt, w).
Proof.
  intros H. unfold click_fallback, try_catch, openActionsMenu, bind, get_page.
  now rewrite H.
Qed.

Lemma confirmationStep_nothing dir bn href w :
  truthy href = None -> p_actions (w_page w) = false ->
  confirmationStep env dir bn href w = (Ok tt, (console warn_confirmation_click w).2).
Proof.
  intros Ht Ha. unfold confirmationStep. rewrite Ht. unfold bind at 1. simpl.
  now rewrite click_fallback_without_menu.
Qed.

Lemma invoiceStep_nothing dir bn pdf href w :
  truthy href = None -> p_actions (w_page w) = false ->
  invoiceStep env dir bn pdf href w = (Ok tt, (console warn_invoice_click w).2).
Proof.
  intros Ht Ha. unfold invoiceStep. rewrite Ht. unfold bind at 1. simpl.
  now rewrite click_fallback_without_menu.
Qed.

Lemma ticketEmailStep_nothing url dir bn w :
  Str.nonempty url = true ->
  List.find is_send_email_anchor (p_nodes (w_page w)) = None ->
  List.find is_send_email_form (p_nodes (w_page w)) = None ->
  Str.exec_query_digits "id" url = None \/ Str.exec_query_digits "eventId" url = None ->
  ticketEmailStep env url dir bn w = (Ok tt, w).
Proof.
  intros Hu Ha Hf Hid.
  unfold ticketEmailStep, try_catch, getSendEmailHref, bind, get_page.
  rewrite Hu, Ha, Hf. simpl.
  destruct Hid as [-> | ->]; simpl; [reflexivity|].
  now rewrite andb_false_r.
Qed.

Lemma qrStep_nothing dir bn pdf w :
  qr_link_visible (w_page w) = false -> qrStep env dir bn pdf w = (Ok tt, w).
Proof.
  unfold qr_link_visible, qrStep, try_catch, bind, get_page.
  destruct (List.find is_send_email_node (p_nodes (w_page w))) as [n|]; [|reflexivity].
  now intros ->.
Qed.

End WithEnv.

End BestEffort.

(** C1, as amended.  Whenever the evidence pass of a registrant completes,
    the attendance and the contact screenshots are in the registrant's
    folder.  The four other evidence types are best effort: without a
    resolved link and without a visible Actions button the confirmation and
    invoice steps only print their warning; without a Send Email link or
    form and without both ids in the address the ticket e-mail step does
    nothing; without a visible Send Email link or form on the current page
    the QR step does nothing. *)
Theorem C1_only_attendance_and_contact_guaranteed
    (env : Env) (url base : string) (pdf : bool) (w : World) :
  (forall w', captureEvidence env url base pdf w = (Ok tt, w') ->
     has_file w' (regDir_of base url)
       (Str.safe (regId_of url) ++ "__01_Attendance_Status_Proof.png")
     /\ has_file w' (regDir_of base url)
       (Str.safe (regId_of url) ++ "__02_Contact_Details.png"))
  /\ (forall dir bn href,
        truthy href = None -> p_actions (w_page w) = false ->
        confirmationStep env dir bn href w = (Ok tt, (console warn_confirmation_click w).2)
        /\ invoiceStep env dir bn pdf href w = (Ok tt, (console warn_invoice_click w).2))
  /\ (forall dir bn,
        Str.nonempty url = true ->
        List.find is_send_email_anchor (p_nodes (w_page w)) = None ->
        List.find is_send_email_form (p_nodes (w_page w)) = None ->
        Str.exec_query_digits "id" url = None
          \/ Str.exec_query_digits "eventId" url = None ->
        ticketEmailStep env url dir bn w = (Ok tt, w))
  /\ (forall dir bn,
        qr_link_visible (w_page w) = false -> qrStep env dir bn pdf w = (Ok tt, w)).
Proof.
  split; [|split; [|split]].
  - intros w'. apply captureEvidence_writes_01_02.
  - intros dir bn href Ht Ha. split.
    + now apply BestEffort.confirmationStep_nothing.
    + now apply BestEffort.invoiceStep_nothing.
  - intros dir bn. apply BestEffort.ticketEmailStep_nothing.
  - intros dir bn. apply BestEffort.qrStep_nothing.
Qed.

Lemma C1_witness :
  has_file (captureEvidence Ex.env_plain Ex.home_url "out" false Ex.empty_world).2
    (regDir_of "out" Ex.home_url)
    (Str.safe (regId_of Ex.home_url) ++ "__01_Attendance_Status_Proof.png")
  /\ has_file (captureEvidence Ex.env_plain Ex.home_url "out" false Ex.empty_world).2
    (regDir_of "out" Ex.home_url)
    (Str.safe (regId_of Ex.home_url) ++ "__02_Contact_Details.png").
Proof.
  destruct (C1_only_attendance_and_contact_guaranteed Ex.env_plain Ex.home_url "out"
              false Ex.empty_world) as [Hfiles _].
  apply Hfiles. vm_compute. reflexivity.
Defined.

(** ** Packaging: zip, upload, delete *)

Module Package.

Section WithEnv.

Variable env : Env.

Lemma packageStep_zip_fails dir blob w :
  zip_ok env dir = false ->
  packageStep env dir blob w =
    (Ok tt, mkWorld (w_page w) (w_fs w)
              (match zip_leftover env dir with
               | Some partial =>
                   <[Str.path_join (tmpdir env) blob := partial]> (w_zips w)
               | None => w_zips w
               end)
              (w_blobs w)
              (w_log w ++ [upload_failed_line "zip failed"])).
Proof.
  intros Hz. unfold packageStep, uploadAndCleanupRegistrant, try_catch, bind, zipDirectory.
  rewrite Hz. destruct (zip_leftover env dir); reflexivity.
Qed.

Lemma packageStep_upload_fails dir blob w :
  zip_ok env dir = true ->
  upload_ok env blob = false ->
  packageStep env dir blob w =
    (Ok tt, mkWorld (w_page w) (w_fs w)
              (<[Str.path_join (tmpdir env) blob := dir_entries w dir]> (w_zips w))
              (w_blobs w)
              (w_log w ++ [upload_failed_line "upload failed"])).
Proof.
  intros Hz Hu.
  unfold packageStep, uploadAndCleanupRegistrant, try_catch, bind, zipDirectory, uploadZip.
  rewrite Hz. simpl. rewrite lookup_insert_eq, Hu. reflexivity.
Qed.

Lemma packageStep_uploaded dir blob w :
  zip_ok env dir = true ->
  upload_ok env blob = true ->
  packageStep env dir blob w =
    (Ok tt,
     mkWorld (w_page w)
       (if rm_ok env dir
        then filter (fun kv => ¬ under dir kv.1) (w_fs w)
        else w_fs w)
       (let zips := <[Str.path_join (tmpdir env) blob := dir_entries w dir]> (w_zips w) in
        let zips := if unlink_ok env (Str.path_join (tmpdir env) blob)
                    then delete (Str.path_join (tmpdir env) blob) zips
                    else zips in
        if rm_ok env dir then filter (fun kv => ¬ under dir kv.1) zips else zips)
       (<[blob := dir_entries w dir]> (w_blobs w))
       (w_log w ++ [Info ("  ☁ Uploaded to Azure: " ++ blob_url env blob);
                    Info ("  🗑️  Deleted local folder: " ++ dir)])).
Proof.
  intros Hz Hu.
  unfold packageStep, uploadAndCleanupRegistrant, try_catch, bind, zipDirectory, uploadZip,
    unlink_quiet, rimraf, console, ret.
  rewrite Hz. simpl. rewrite lookup_insert_eq, Hu.
  destruct (unlink_ok env _), (rm_ok env dir); simpl;
    rewrite <- app_assoc; reflexivity.
Qed.

Lemma packageStep_never_throws dir blob w : (packageStep env dir blob w).1 = Ok tt.
Proof.
  destruct (zip_ok env dir) eqn:Hz.
  - destruct (upload_ok env blob) eqn:Hu.
    + now rewrite packageStep_uploaded.
    + now rewrite packageStep_upload_fails.
  - now rewrite packageStep_zip_fails.
Qed.

Lemma rimraf_removes dir (fs : gmap string (gmap string Content)) :
  filter (fun kv => ¬ under dir kv.1) fs !! dir = None.
Proof.
  apply map_lookup_filter_None. right. intros x _ Hn. apply Hn. now left.
Qed.

Lemma rimraf_subset dir (fs : gmap string (gmap string Content)) d :
  is_Some (filter (fun kv => ¬ under dir kv.1) fs !! d) -> is_Some (fs !! d).
Proof.
  intros [x Hx]. apply map_lookup_filter_Some in Hx as [Hx _]. eauto.
Qed.

(** The folder of the registrant exists when the evidence pass is over. *)
Lemma captureEvidence_dir_exists url base pdf w w1 :
  captureEvidence env url base pdf w = (Ok tt, w1) ->
  is_Some (w_fs w1 !! regDir_of base url).
Proof.
  intros H. apply captureEvidence_writes_01_02 in H as [(files & Hf & _) _].
  eauto.
Qed.

Lemma processRegistrant_ok url base pdf w w1 :
  captureEvidence env url base pdf w = (Ok tt, w1) ->
  processRegistrant env url base pdf w =
    packageStep env (regDir_of base url) (blobName_of url) w1.
Proof. intros H. unfold processRegistrant. now rewrite (bind_run_ok _ _ _ _ _ H). Qed.


End WithEnv.

End Package.

(** C2, counterexample.  Every step succeeds except the removal of the
    folder, whose error [rimraf] swallows: the archive is uploaded and the
    console reports the upload, yet the folder is still there. *)
Lemma C2_counterexample :
  let w' := (processRegistrant Ex2.env_rm_fails Ex.home_url "out" false Ex.empty_world).2 in
  is_Some (w_blobs w' !! "12345.zip")
  /\ Info "  ☁ Uploaded to Azure: https://acct.blob.core.windows.net/evidence/12345.zip"
       ∈ w_log w'
  /\ is_Some (w_fs w' !! "out/12345").
Proof.
  vm_compute. split; [eauto|]. split; [|eauto].
  repeat constructor.
Qed.

(** C2, as amended.  For a registrant whose evidence pass completes:
    the only folder that can be new is the one named by the id, and it
    exists when packaging starts; if it is gone afterwards then the archive
    was zipped and uploaded (the blob holds the folder's files and the
    console reports the upload); after a confirmed upload the folder is gone
    whenever the best-effort removal succeeds; if zipping or uploading
    fails, the folders and the blob container are as before and the console
    ends with the failure line. *)
Theorem C2_folder_deleted_only_after_upload
    (env : Env) (url base : string) (pdf : bool) (w w1 : World) :
  captureEvidence env url base pdf w = (Ok tt, w1) ->
  let dir := regDir_of base url in
  let blob := blobName_of url in
  let w' := (processRegistrant env url base pdf w).2 in
  (forall d, is_Some (w_fs w' !! d) -> is_Some (w_fs w !! d) \/ d = dir)
  /\ is_Some (w_fs w1 !! dir)
  /\ (w_fs w' !! dir = None ->
        zip_ok env dir = true /\ upload_ok env blob = true
        /\ w_blobs w' !! blob = Some (dir_entries w1 dir)
        /\ Info ("  ☁ Uploaded to Azure: " ++ blob_url env blob) ∈ w_log w')
  /\ (zip_ok env dir = true -> upload_ok env blob = true -> rm_ok env dir = true ->
        w_fs w' !! dir = None /\ w_blobs w' !! blob = Some (dir_entries w1 dir))
  /\ (zip_ok env dir = false \/ upload_ok env blob = false ->
        w_fs w' = w_fs w1 /\ w_blobs w' = w_blobs w
        /\ exists e, w_log w' = (w_log w1 ++ [upload_failed_line e])%list).
Proof.
  intros H dir blob w'.
  pose proof (Package.captureEvidence_dir_exists env url base pdf w w1 H) as Hdir.
  pose proof (Evidence.captureEvidence_stable env any_event url base pdf
                (fun _ => I) (fun _ => I) w) as E.
  rewrite H in E. simpl in E. destruct E as [_ Hnew _ Hblobs _].
  subst w'. rewrite (Package.processRegistrant_ok env url base pdf w w1 H).
  fold dir blob. fold dir in Hdir, Hnew.
  destruct (zip_ok env dir) eqn:Hz; [destruct (upload_ok env blob) eqn:Hu|].
  - rewrite Package.packageStep_uploaded by done. simpl.
    split; [|split; [done|split; [|split]]].
    + intros d Hd. apply Hnew.
      destruct (rm_ok env dir); [eapply Package.rimraf_subset|]; eauto.
    + intros _. split; [done|]. split; [done|].
      rewrite lookup_insert_eq. split; [done|].
      apply elem_of_app. right. constructor.
    + intros _ _ ->. rewrite lookup_insert_eq. split; [|done].
      apply Package.rimraf_removes.
    + intros [?|?]; discriminate.
  - rewrite Package.packageStep_upload_fails by done. simpl.
    split; [auto|]. split; [done|]. split; [|split].
    + intros Hn. rewrite Hn in Hdir. now destruct Hdir.
    + discriminate.
    + intros _. split; [done|]. split; [done|]. eauto.
  - rewrite Package.packageStep_zip_fails by done. simpl.
    split; [auto|]. split; [done|]. split; [|split].
    + intros Hn. rewrite Hn in Hdir. now destruct Hdir.
    + discriminate.
    + intros _. split; [done|]. split; [done|]. eauto.
Qed.

Lemma C2_witness :
  let url := Ex.home_url in
  let w1 := (captureEvidence Ex.env_plain url "out" false Ex.empty_world).2 in
  let w' := (processRegistrant Ex.env_plain url "out" false Ex.empty_world).2 in
  w_fs w' !! "out/12345" = None
  /\ w_blobs w' !! "12345.zip" = Some (dir_entries w1 "out/12345").
Proof.
  intros url w1 w'.
  assert (captureEvidence Ex.env_plain url "out" false Ex.empty_world = (Ok tt, w1)) as H
    by (vm_compute; reflexivity).
  destruct (C2_folder_deleted_only_after_upload Ex.env_plain url "out" false
              Ex.empty_world w1 H) as (_ & _ & _ & Hdel & _).
  apply Hdel; reflexivity.
Defined.

(** ** C3: a navigation that fails *)

Module Nav.

Section WithEnv.

Variable env : Env.

Lemma goto_fails url w :
  goto_result env url = None -> goto env url w = (Throw ("page.goto: " ++ url), w).
Proof. intros H. unfold goto. now rewrite H. Qed.

Lemma confirmationStep_nav_fails dir bn resolved href w :
  truthy resolved = Some href ->
  goto_result env href = None ->
  confirmationStep env dir bn resolved w = (Throw ("page.goto: " ++ href), w).
Proof.
  intros Ht H. unfold confirmationStep. rewrite Ht.
  now rewrite (bind_run_throw _ _ _ _ _ (goto_fails href w H)).
Qed.

Lemma invoiceStep_nav_fails dir bn pdf resolved href w :
  truthy resolved = Some href ->
  goto_result env href = None ->
  invoiceStep env dir bn pdf resolved w = (Throw ("page.goto: " ++ href), w).
Proof.
  intros Ht H. unfold invoiceStep. rewrite Ht.
  now rewrite (bind_run_throw _ _ _ _ _ (goto_fails href w H)).
Qed.

Lemma try_catch_total (m : M unit) (hd : string -> M unit) w :
  (forall e w0, (hd e w0).1 = Ok tt) -> (try_catch m hd w).1 = Ok tt.
Proof.
  intros Hh. unfold try_catch. destruct (m w) as [[[]|e] w1]; [reflexivity | apply Hh].
Qed.

Lemma ticketEmailStep_never_throws url dir bn w :
  (ticketEmailStep env url dir bn w).1 = Ok tt.
Proof. unfold ticketEmailStep. apply try_catch_total. reflexivity. Qed.

Lemma qrStep_never_throws dir bn pdf w : (qrStep env dir bn pdf w).1 = Ok tt.
Proof. unfold qrStep. apply try_catch_total. reflexivity. Qed.

Lemma home_nav_fails url base pdf w :
  goto_result env url = None ->
  processRegistrant env url base pdf w =
    (Throw ("page.goto: " ++ url), (console (Info (Str.nl ++ "▶ " ++ url)) w).2).
Proof.
  intros H. unfold processRegistrant, captureEvidence, bind, console, goto.
  rewrite H. reflexivity.
Qed.

Lemma processRegistrant_throws_in_capture url base pdf w e w' :
  processRegistrant env url base pdf w = (Throw e, w') ->
  captureEvidence env url base pdf w = (Throw e, w').
Proof.
  intros H. unfold processRegistrant in H.
  apply bind_throw in H as [H | (a & w1 & _ & H)]; [exact H|].
  pose proof (Package.packageStep_never_throws env
                (regDir_of base url) (blobName_of url) w1) as Hn.
  rewrite H in Hn. discriminate.
Qed.

Lemma run_all_after_throw url rest base pdf w e w' :
  processRegistrant env url base pdf w = (Throw e, w') ->
  run_all env (url :: rest) base pdf w =
    run_all env rest base pdf (console (runner_error_line url e) w').2.
Proof.
  intros H. cbn [run_all]. unfold bind at 1, try_catch. rewrite H. reflexivity.
Qed.

End WithEnv.

End Nav.

(** C3, counterexample.  The confirmation link is resolved but cannot be
    reached.  The job throws after the first two captures; nothing is
    zipped or uploaded although both would succeed, the folder keeps its
    two files, and the console has no packaging line. *)
Lemma C3_counterexample :
  let env := Ex3.env_confirmation_down in
  let r := processRegistrant env Ex.home_url "out" false Ex.empty_world in
  r.1 = Throw "page.goto: https://www.swoogo.com/loggedin/registrant/confirmation?id=12345"
  /\ dir_entries r.2 "out/12345"
     = ["12345__01_Attendance_Status_Proof.png"; "12345__02_Contact_Details.png"]
  /\ zip_ok env "out/12345" = true /\ upload_ok env "12345.zip" = true
  /\ w_zips r.2 = ∅ /\ w_blobs r.2 = ∅
  /\ w_log r.2 = [Info (Str.nl ++ "▶ " ++ Ex.home_url);
                  Info "  ✔ 12345__01_Attendance_Status_Proof.png";
                  Info "  ✔ 12345__02_Contact_Details.png"].
Proof. vm_compute. repeat split; reflexivity. Qed.

(** C3, as amended.  The navigations to the registrant page, to a resolved
    confirmation link and to a resolved invoice link are not guarded: when
    one fails the job throws.  A job that throws is the evidence pass
    alone: packaging is not attempted (archives and blobs are as before, no
    file or folder is removed, the job prints no error line of its own),
    and the runner prints the error line of the registrant and goes on with
    the next one.  The ticket e-mail and QR steps never throw: a failed
    navigation there only ends that step.  Packaging runs exactly after an
    evidence pass that completed. *)
Theorem C3_failed_navigation_skips_packaging
    (env : Env) (url base : string) (pdf : bool) (w : World) :
  (goto_result env url = None ->
     exists e, (processRegistrant env url base pdf w).1 = Throw e)
  /\ (forall dir bn resolved href w0,
        truthy resolved = Some href -> goto_result env href = None ->
        (exists e, confirmationStep env dir bn resolved w0 = (Throw e, w0))
        /\ (exists e, invoiceStep env dir bn pdf resolved w0 = (Throw e, w0)))
  /\ (forall dir bn w0,
        (ticketEmailStep env url dir bn w0).1 = Ok tt
        /\ (qrStep env dir bn pdf w0).1 = Ok tt)
  /\ (forall e w', processRegistrant env url base pdf w = (Throw e, w') ->
        captureEvidence env url base pdf w = (Throw e, w')
        /\ ext not_error (regDir_of base url) w w'
        /\ forall rest,
             run_all env (url :: rest) base pdf w =
             run_all env rest base pdf (console (runner_error_line url e) w').2)
  /\ (forall w1, captureEvidence env url base pdf w = (Ok tt, w1) ->
        processRegistrant env url base pdf w =
          packageStep env (regDir_of base url) (blobName_of url) w1).
Proof.
  split; [|split; [|split; [|split]]]; [| | | |apply Package.processRegistrant_ok].
  - intros H. rewrite (Nav.home_nav_fails env url base pdf w H). eauto.
  - intros dir bn resolved href w0 Ht H. split.
    + rewrite (Nav.confirmationStep_nav_fails env dir bn resolved href w0 Ht H). eauto.
    + rewrite (Nav.invoiceStep_nav_fails env dir bn pdf resolved href w0 Ht H). eauto.
  - intros dir bn w0. split.
    + apply Nav.ticketEmailStep_never_throws.
    + apply Nav.qrStep_never_throws.
  - intros e w' H.
    pose proof (Nav.processRegistrant_throws_in_capture env url base pdf w e w' H) as Hc.
    split; [exact Hc|]. split.
    + pose proof (Evidence.captureEvidence_stable env not_error url base pdf
                    (fun _ => I) (fun _ => I) w) as E.
      now rewrite Hc in E.
    + intros rest. now apply Nav.run_all_after_throw.
Qed.

Lemma C3_witness :
  exists e, (processRegistrant Ex.env_plain "https://www.swoogo.com/unreachable?id=5"
               "out" false Ex.empty_world).1 = Throw e.
Proof.
  destruct (C3_failed_navigation_skips_packaging Ex.env_plain
              "https://www.swoogo.com/unreachable?id=5" "out" false Ex.empty_world)
    as [Hhome _].
  apply Hhome. reflexivity.
Defined.

(** ** C4: the confirmation capture *)

Module Confirmation.

Lemma frame_first dir bn w :
  head (p_iframes (w_page w)) = Some true ->
  captureConfirmationEmail dir bn w =
    (write_file (email_png dir bn) (FrameBodyImg (p_url (w_page w))) ;;; console ok_line) w.
Proof.
  intros H. unfold captureConfirmationEmail, bind, get_page, try_catch.
  destruct (p_iframes (w_page w)) as [|[] ?]; try discriminate. reflexivity.
Qed.

Lemma candidate_second dir bn w c cs :
  no_frame_shot (w_page w) ->
  p_email (w_page w) = c :: cs ->
  captureConfirmationEmail dir bn w =
    if cand_visible c then
      (write_file (email_png dir bn) (ElementImg (p_url (w_page w)) (cand_name c)) ;;;
       console ok_line) w
    else (Throw "locator.screenshot", w).
Proof.
  intros Hn He. unfold captureConfirmationEmail, bind, get_page, try_catch.
  unfold no_frame_shot in Hn. rewrite He.
  destruct (p_iframes (w_page w)) as [|[] ?]; try (now destruct Hn);
    destruct (cand_visible c); reflexivity.
Qed.

Lemma full_page_last dir bn w :
  no_frame_shot (w_page w) ->
  p_email (w_page w) = [] ->
  captureConfirmationEmail dir bn w =
    if p_shot (w_page w) then
      (write_file (full_png dir bn) (FullPageImg (p_url (w_page w))) ;;;
       console warn_confirmation_full) w
    else (Throw "page.screenshot", w).
Proof.
  intros Hn He.
  unfold captureConfirmationEmail, page_screenshot, bind, get_page, try_catch.
  unfold no_frame_shot in Hn. rewrite He.
  destruct (p_iframes (w_page w)) as [|[] ?]; try (now destruct Hn);
    simpl; destruct (p_shot (w_page w)); reflexivity.
Qed.

End Confirmation.

(** C4, counterexample.  The page has an embedded frame and a visible
    element matched by the candidate selectors: the file holds the body of
    the frame, not the matched element. *)
Lemma C4_counterexample :
  let w' := (captureConfirmationEmail "out/12345" "12345" Ex4.on_confirmation_page).2 in
  exists files,
    w_fs w' !! "out/12345" = Some files
    /\ files !! "12345__05_Confirmation_email.png"
       = Some (FrameBodyImg (p_url Ex4.confirmation_page))
    /\ files !! "12345__05_Confirmation_email.png"
       <> Some (ElementImg (p_url Ex4.confirmation_page) ".email-body").
Proof.
  vm_compute. eexists. split; [reflexivity|]. split; [reflexivity|]. discriminate.
Qed.

(** C4, as amended.  The confirmation capture first shoots the body of
    the first embedded frame when the page has one; only when that gave no
    file (no frame, or the shot failed) does it shoot the first element
    matched by the candidate selectors, visible or not (a hidden one makes
    the capture throw); only when there is neither does it take a
    full-page capture, saved under the [_full] name with a warning. *)
Theorem C4_frame_then_candidates_then_full_page (dir bn : string) (w : World) :
  let p := w_page w in
  (head (p_iframes p) = Some true ->
     captureConfirmationEmail dir bn w =
       (write_file (email_png dir bn) (FrameBodyImg (p_url p)) ;;;
        console ok_line) w)
  /\ (forall c cs, no_frame_shot p -> p_email p = c :: cs ->
        captureConfirmationEmail dir bn w =
          if cand_visible c then
            (write_file (email_png dir bn)
               (ElementImg (p_url p) (cand_name c)) ;;;
             console ok_line) w
          else (Throw "locator.screenshot", w))
  /\ (no_frame_shot p -> p_email p = [] ->
        captureConfirmationEmail dir bn w =
          if p_shot p then
            (write_file (full_png dir bn) (FullPageImg (p_url p)) ;;;
             console warn_confirmation_full) w
          else (Throw "page.screenshot", w)).
Proof.
  intros p. split; [|split].
  - apply Confirmation.frame_first.
  - intros c cs. apply Confirmation.candidate_second.
  - apply Confirmation.full_page_last.
Qed.

Lemma C4_witness :
  captureConfirmationEmail "out/12345" "12345" Ex4.on_confirmation_page =
    (write_file (email_png "out/12345" "12345")
       (FrameBodyImg (p_url Ex4.confirmation_page)) ;;;
     console ok_line) Ex4.on_confirmation_page.
Proof.
  destruct (C4_frame_then_candidates_then_full_page "out/12345" "12345"
              Ex4.on_confirmation_page) as [Hframe _].
  apply Hframe. reflexivity.
Defined.

(** ** C5: the preview frame that never shows up *)

Module Preview.

Lemma no_iframe_throws kw out w :
  p_preview (w_page w) = NotAttached ->
  captureIframeBySrc kw out w =
    (Throw "page.waitForSelector: Timeout 15000ms exceeded", w).
Proof.
  intros H. unfold captureIframeBySrc, bind, get_page. now rewrite H.
Qed.

Lemma no_content_frame_falls_back kw out w :
  p_preview (w_page w) = NoContentFrame ->
  captureIframeBySrc kw out w =
    (console warn_frame_full ;;;
     page_screenshot (Str.replace_png_suffix out) ;;;
     ret false) w.
Proof.
  intros H. unfold captureIframeBySrc. unfold bind at 1. unfold get_page.
  now rewrite H.
Qed.

Lemma frame_ready_shoots kw out w ok :
  p_preview (w_page w) = FrameReady ok ->
  captureIframeBySrc kw out w =
    ((if ok then write_file out (FrameHtmlImg (p_url (w_page w)))
      else throw "locator.screenshot") ;;;
     console (Info ("✔ Full email captured → " ++ out)) ;;;
     ret false) w.
Proof.
  intros H. unfold captureIframeBySrc. unfold bind at 1. unfold get_page.
  now rewrite H.
Qed.

End Preview.

(** C5, at the failing input.  The Send Email page is reached but its
    preview iframe is never attached: the wait throws, the fallback branch
    is not reached, the step writes no file and only prints that the ticket
    e-mail preview could not be captured. *)
Theorem C5_no_fallback_when_iframe_missing :
  let r := ticketEmailStep Ex5.env_no_preview Ex.home_url "out/12345" "12345"
             Ex5.on_home_page in
  r.1 = Ok tt
  /\ p_url (w_page r.2) = Ex.send_email_url
  /\ p_preview (w_page r.2) = NotAttached
  /\ w_fs r.2 = w_fs Ex5.on_home_page
  /\ dir_entries r.2 "out/12345" = []
  /\ w_log r.2 =
       [Warn ("  ⚠ Could not capture Ticket Email Preview: "
              ++ "page.waitForSelector: Timeout 15000ms exceeded")].
Proof. vm_compute. repeat split; reflexivity. Qed.

(** ** C6: resolving a link from the keywords *)

Module Resolve.
Import Str StrFacts.

Lemma lower_char_idem c : lower_char (lower_char c) = lower_char c.
Proof. destruct c as [[] [] [] [] [] [] [] []]; reflexivity. Qed.

Lemma toLowerCase_idem s : toLowerCase (toLowerCase s) = toLowerCase s.
Proof.
  induction s as [|c r IH]; simpl; [reflexivity|].
  now rewrite lower_char_idem, IH.
Qed.

Lemma strip_prefix_lower p s r :
  strip_prefix p s = Some r ->
  strip_prefix (toLowerCase p) (toLowerCase s) = Some (toLowerCase r).
Proof.
  revert s; induction p as [|a p IH]; intros s.
  - simpl. now intros [= ->].
  - destruct s as [|b s]; simpl; [discriminate|].
    destruct (Ascii.eqb_spec a b) as [->|]; [|discriminate].
    rewrite Ascii.eqb_refl. apply IH.
Qed.

Lemma starts_with_lower p s :
  starts_with p s = true -> starts_with (toLowerCase p) (toLowerCase s) = true.
Proof.
  unfold starts_with. destruct (strip_prefix p s) eqn:H; [|discriminate].
  now rewrite (strip_prefix_lower _ _ _ H).
Qed.

Lemma includes_lower h n :
  includes h n = true -> includes (toLowerCase h) (toLowerCase n) = true.
Proof.
  induction h as [|c r IH]; simpl.
  - rewrite !orb_false_r. intros H. apply starts_with_lower in H. exact H.
  - intros [H|H]%orb_prop.
    + apply starts_with_lower in H. simpl in H. rewrite H. reflexivity.
    + rewrite (IH H). apply orb_true_r.
Qed.

Lemma css_contains_includes h n : css_contains h n = true -> includes h n = true.
Proof. unfold css_contains. destruct n; [discriminate | auto]. Qed.

Section WithEnv.

Variable env : Env.

Lemma matches_keyword_lower needles h :
  existsb (fun n => includes (toLowerCase h) n) (toLowerCase <$> (toLowerCase <$> needles))
  = matches_keyword needles h.
Proof.
  unfold matches_keyword. induction needles as [|k ks IH]; [reflexivity|].
  rewrite !fmap_cons. cbn [existsb]. now rewrite toLowerCase_idem, IH.
Qed.

Lemma scan_is_first_match needles base nodes :
  scan_anchors env (toLowerCase <$> (toLowerCase <$> needles)) base nodes
  = (fun href => absolute_or_raw env href base) <$> first_match needles nodes.
Proof.
  induction nodes as [|[h v|a v] rest IH]; simpl; [reflexivity| |exact IH].
  rewrite matches_keyword_lower.
  destruct (matches_keyword needles h); [reflexivity | exact IH].
Qed.

Lemma quick_hit_matches needles nodes n :
  List.find (anchor_href_contains (toLowerCase <$> needles)) nodes = Some n ->
  exists h v, n = Anchor h v /\ matches_keyword needles h = true.
Proof.
  intros Hf. apply find_some in Hf as [_ Hn].
  destruct n as [h v|a v]; [|discriminate]. exists h, v. split; [reflexivity|].
  simpl in Hn. unfold matches_keyword.
  apply existsb_exists in Hn as (x & Hx & Hc).
  apply in_map_iff in Hx as (k & <- & Hk).
  apply existsb_exists. exists k. split; [exact Hk|].
  apply css_contains_includes, includes_lower in Hc.
  now rewrite toLowerCase_idem in Hc.
Qed.

Lemma first_match_none_no_anchor needles nodes h v :
  first_match needles nodes = None -> In (Anchor h v) nodes ->
  matches_keyword needles h = false.
Proof.
  induction nodes as [|[h0 v0|a0 v0] rest IH]; simpl; [tauto| |].
  - destruct (matches_keyword needles h0) eqn:Hm; [discriminate|].
    intros Hn [[= <- <-]|Hin]; auto.
  - intros Hn [[=]|Hin]; auto.
Qed.

(** The search finds nothing exactly when no anchor matches a keyword. *)
Lemma find_href_none_iff p needles :
  find_href_in env p (toLowerCase <$> needles) = None
  <-> first_match needles (p_nodes p) = None.
Proof.
  unfold find_href_in, fast_href. rewrite scan_is_first_match.
  split.
  - destruct (List.find _ (p_nodes p)) as [n|] eqn:Hq.
    + destruct (node_visible n); [|destruct (first_match _ _); [discriminate|done]].
      destruct (getAttribute_href n) as [href|];
        [|destruct (first_match _ _); [discriminate|done]].
      destruct (nonempty href); [discriminate|].
      destruct (first_match _ _); [discriminate|done].
    + destruct (first_match _ _); [discriminate|done].
  - intros Hn. rewrite Hn.
    destruct (List.find _ (p_nodes p)) as [n|] eqn:Hq; [|reflexivity].
    exfalso. pose proof Hq as Hin. apply find_some in Hin as [Hin _].
    apply quick_hit_matches in Hq as (h & v & -> & Hm).
    rewrite (first_match_none_no_anchor _ _ _ _ Hn Hin) in Hm. discriminate.
Qed.

(** When the fast path does not fire, the result is the specification's. *)
Lemma find_href_by_scan p needles :
  List.find (anchor_href_contains (toLowerCase <$> needles)) (p_nodes p) = None ->
  find_href_in env p (toLowerCase <$> needles) = resolveHref_spec env p needles.
Proof.
  intros Hq. unfold find_href_in, fast_href, resolveHref_spec. rewrite Hq.
  apply scan_is_first_match.
Qed.

End WithEnv.

End Resolve.

(** C6, at the failing input.  Two visible links match the keyword
    [invoice] when case is ignored; the first in document order spells it
    with a capital.  The specification's resolver returns the first one; the
    script's fast path compares case-sensitively, skips it and returns the
    second. *)
Theorem C6_fast_path_skips_first_match :
  let env := Ex.env_plain in
  let r := findActionHrefByUrlContains env ["invoice"] true Ex6.on_two_links in
  resolveHref_spec env Ex6.two_invoice_links ["invoice"]
    = Some "https://www.swoogo.com/loggedin/registrant/Invoice?id=12345"
  /\ r.1 = Ok (Some "https://www.swoogo.com/loggedin/invoice/help")
  /\ r.1 <> Ok (resolveHref_spec env Ex6.two_invoice_links ["invoice"]).
Proof. vm_compute. repeat split; try reflexivity. discriminate. Qed.

(** ** C7: a fallback capture leaves a warning *)

Module Degraded.
Import Str StrFacts.

Lemma emitted_forall (P : LogEv -> Prop) D {A} (m : M A) w :
  Stable P D m -> Forall P (emitted m w).
Proof.
  intros Hs. destruct (Hs w) as [_ _ _ _ (delta & Hl & HP)].
  unfold emitted. rewrite Hl, drop_app_length. exact HP.
Qed.

Lemma emitted_throw_here {A} (m : M A) w e :
  m w = (Throw e, w) -> emitted m w = [].
Proof. intros H. unfold emitted. rewrite H. simpl. apply drop_all. Qed.

Lemma emitted_console_first (P : LogEv -> Prop) D {A} (m : M A) ev w :
  Stable P D m -> exists rest, emitted (console ev ;;; m) w = ev :: rest.
Proof.
  intros Hs. unfold emitted, bind. simpl.
  destruct (Hs (mkWorld (w_page w) (w_fs w) (w_zips w) (w_blobs w) (w_log w ++ [ev])))
    as [_ _ _ _ (delta & Hl & _)].
  simpl in Hl. exists delta. rewrite Hl, <- app_assoc, drop_app_length. reflexivity.
Qed.

Lemma emitted_ext_eq {A} (m m' : M A) w : m w = m' w -> emitted m w = emitted m' w.
Proof. unfold emitted. now intros ->. Qed.

Lemma emitted_write_then_console path c ev w :
  emitted (write_file path c ;;; console ev) w = [ev].
Proof. unfold emitted, bind. simpl. apply drop_app_length. Qed.

Lemma not_in_forall (ev : LogEv) (l : list LogEv) :
  Forall (fun x => x <> ev) l -> ev ∉ l.
Proof.
  intros HF Hin. rewrite Forall_forall in HF. now apply (HF ev Hin).
Qed.

Section WithEnv.

Variable env : Env.

Lemma invoice_warning dir regId pdf href w :
  warn_invoice_click ∈ emitted (invoiceStep env dir (safe regId) pdf href) w
  <-> truthy href = None.
Proof.
  pose proof (safe_no_slash regId) as Hs.
  split.
  - intros Hin. destruct (truthy href) as [h|] eqn:Ht; [exfalso|reflexivity].
    revert Hin. apply not_in_forall.
    apply (emitted_forall _ dir). apply Frame.invoiceStep_stable; [|done|].
    + intros s. discriminate.
    + rewrite Ht. discriminate.
  - intros Ht. unfold emitted, invoiceStep. rewrite Ht.
    change (drop (List.length (w_log w)) (w_log (?m w).2)) with (emitted m w).
    change (emitted ?m w) with
      (emitted (console warn_invoice_click ;;;
            click_fallback env "invoice"
              (captureFullPage (path_join dir (safe regId ++ "__06_Invoice")) pdf)) w).
    assert (Stable any_event dir
              (click_fallback env "invoice"
                 (captureFullPage (path_join dir (safe regId ++ "__06_Invoice")) pdf)))
      as Hst.
    { apply Frame.click_fallback_stable.
      apply Frame.captureFullPage_stable; [done|].
      now rewrite all_chars_app, Hs. }
    destruct (emitted_console_first any_event dir _ warn_invoice_click w Hst)
      as [rest ->].
    apply list_elem_of_here.
Qed.

Lemma confirmation_warning dir regId href w :
  warn_confirmation_click ∈ emitted (confirmationStep env dir (safe regId) href) w
  <-> truthy href = None.
Proof.
  pose proof (safe_no_slash regId) as Hs.
  split.
  - intros Hin. destruct (truthy href) as [h|] eqn:Ht; [exfalso|reflexivity].
    revert Hin. apply not_in_forall.
    apply (emitted_forall _ dir). apply Frame.confirmationStep_stable; [|done| |].
    + intros s. discriminate.
    + discriminate.
    + rewrite Ht. discriminate.
  - intros Ht. unfold emitted, confirmationStep. rewrite Ht.
    change (drop (List.length (w_log w)) (w_log (?m w).2)) with (emitted m w).
    change (emitted ?m w) with
      (emitted (console warn_confirmation_click ;;;
            click_fallback env "confirmation" (captureConfirmationEmail dir (safe regId))) w).
    assert (Stable any_event dir
              (click_fallback env "confirmation"
                 (captureConfirmationEmail dir (safe regId)))) as Hst.
    { apply Frame.click_fallback_stable.
      apply Frame.captureConfirmationEmail_stable; done. }
    destruct (emitted_console_first any_event dir _ warn_confirmation_click w Hst)
      as [rest ->].
    apply list_elem_of_here.
Qed.

End WithEnv.

Lemma confirmation_full_warning dir bn w :
  warn_confirmation_full ∈ emitted (captureConfirmationEmail dir bn) w
  <-> no_frame_shot (w_page w) /\ p_email (w_page w) = [] /\ p_shot (w_page w) = true.
Proof.
  unfold emitted.
  destruct (decide (head (p_iframes (w_page w)) = Some true)) as [Hh|Hh].
  - rewrite (Confirmation.frame_first dir bn w Hh).
    unfold bind. simpl. rewrite drop_app_length. unfold no_frame_shot.
    split; [|tauto].
    intros [[=]|Hin%elem_of_nil]%elem_of_cons; done.
  - destruct (p_email (w_page w)) as [|c cs] eqn:He.
    + rewrite (Confirmation.full_page_last dir bn w Hh He).
      destruct (p_shot (w_page w)); unfold bind; simpl.
      * rewrite drop_app_length.
        split; [done|]. intros _. apply list_elem_of_here.
      * rewrite drop_all.
        split; [intros []%elem_of_nil | intros (_ & _ & [=])].
    + rewrite (Confirmation.candidate_second dir bn w c cs Hh He).
      destruct (cand_visible c); unfold bind; simpl.
      * rewrite drop_app_length.
        split; [|intros (_ & [=] & _)].
        intros [[=]|Hin%elem_of_nil]%elem_of_cons; done.
      * rewrite drop_all.
        split; [intros []%elem_of_nil | intros (_ & [=] & _)].
Qed.

Lemma frame_full_warning kw out w :
  warn_frame_full ∈ emitted (captureIframeBySrc kw out) w
  <-> p_preview (w_page w) = NoContentFrame.
Proof.
  destruct (p_preview (w_page w)) as [| |ok] eqn:Hp.
  - unfold emitted. rewrite (Preview.no_iframe_throws kw out w Hp). simpl.
    rewrite drop_all. split; [intros []%elem_of_nil | discriminate].
  - split; [done|]. intros _.
    unfold emitted. rewrite (Preview.no_content_frame_falls_back kw out w Hp).
    assert (Stable any_event (dirname (replace_png_suffix out))
              (page_screenshot (replace_png_suffix out) ;;; ret false)) as Hst.
    { pose proof (Frame.page_screenshot_stable any_event
                    (dirname (replace_png_suffix out)) _ eq_refl).
      stable. }
    destruct (emitted_console_first any_event _ _ warn_frame_full w Hst) as [rest Hr].
    unfold emitted in Hr. rewrite Hr. apply list_elem_of_here.
  - unfold emitted. rewrite (Preview.frame_ready_shoots kw out w ok Hp).
    split; [|discriminate].
    destruct ok; unfold bind; simpl.
    + rewrite drop_app_length. intros [[=]|Hin%elem_of_nil]%elem_of_cons; done.
    + rewrite drop_all. intros []%elem_of_nil.
Qed.

End Degraded.

(** C7.  Every fallback capture prints its own warning, and only it does:
    the invoice step and the confirmation step print the click-fallback
    warning exactly when no link was resolved; the confirmation capture
    prints the full-page warning exactly when it saved the full page in
    place of the e-mail body; the ticket e-mail capture prints the
    content-frame warning exactly when it fell back to the full page.  So
    the console always tells a fallback capture from a clean one. *)
Theorem C7_fallback_capture_always_warns
    (env : Env) (dir regId : string) (pdf : bool) (w : World) :
  (forall href,
     warn_invoice_click ∈ emitted (invoiceStep env dir (Str.safe regId) pdf href) w
     <-> truthy href = None)
  /\ (forall href,
     warn_confirmation_click ∈ emitted (confirmationStep env dir (Str.safe regId) href) w
     <-> truthy href = None)
  /\ (warn_confirmation_full ∈ emitted (captureConfirmationEmail dir (Str.safe regId)) w
     <-> no_frame_shot (w_page w) /\ p_email (w_page w) = []
         /\ p_shot (w_page w) = true)
  /\ (forall kw out,
     warn_frame_full ∈ emitted (captureIframeBySrc kw out) w
     <-> p_preview (w_page w) = NoContentFrame).
Proof.
  split; [|split; [|split]].
  - intros href. apply Degraded.invoice_warning.
  - intros href. apply Degraded.confirmation_warning.
  - apply Degraded.confirmation_full_warning.
  - intros kw out. apply Degraded.frame_full_warning.
Qed.

(** ** C8: the styles after a full-page capture *)

Module Restore.






(** With only [overflow-y] declared, the declaration is lost. *)
Lemma single_axis_lost e :
  st_overflowX (el_style e) = "" ->
  st_overflowY (el_style (restore_element (expand_element e))) = "".
Proof.
  destruct e as [[hh mm sx sy ih im ix iy] comp sh ch pre]. cbn [el_style st_overflowX].
  intros ->. reflexivity.
Qed.






End Restore.

(** C8, at the failing input.  The body carries [overflow: hidden] inline
    and one scrolling box is declared [height: 300px; overflow-y: auto].
    The capture succeeds; afterwards the body and the root are left at
    [overflow: visible], the box got its height back but lost its
    [overflow-y], and the style sheet that hides the side panel stays. *)
Theorem C8_styles_not_restored :
  let r := captureFullPage "out/12345/12345__01_Attendance_Status_Proof" false Ex8.world in
  let p' := w_page r.2 in
  r.1 = Ok tt
  /\ el_style (p_body Ex8.page) = mkStyle "" "" "hidden" "hidden"
  /\ el_style (p_body p') = mkStyle "" "" "visible" "visible"
  /\ el_style (p_html Ex8.page) = mkStyle "" "" "" ""
  /\ el_style (p_html p') = mkStyle "" "" "visible" "visible"
  /\ el_style <$> p_elems Ex8.page = [mkStyle "300px" "" "" "auto"]
  /\ el_style <$> p_elems p' = [mkStyle "300px" "" "" ""]
  /\ p_styleTags Ex8.page = 0 /\ p_styleTags p' = 1.
Proof. vm_compute. repeat split; reflexivity. Qed.

(** ** C9: the exit status *)

Module Run.

Section WithEnv.

Variable env : Env.

Lemma one_registrant_ok u base pdf w : (one_registrant env u base pdf w).1 = Ok tt.
Proof.
  unfold one_registrant, try_catch.
  destruct (processRegistrant env u base pdf w) as [[[]|e] w1]; reflexivity.
Qed.

Lemma run_all_cons u rest base pdf w :
  run_all env (u :: rest) base pdf w
  = run_all env rest base pdf (one_registrant env u base pdf w).2.
Proof.
  change (run_all env (u :: rest) base pdf w)
    with (bind (one_registrant env u base pdf) (fun _ => run_all env rest base pdf) w).
  unfold bind. pose proof (one_registrant_ok u base pdf w) as Hok.
  destruct (one_registrant env u base pdf w) as [[[]|e] w1]; [reflexivity | discriminate].
Qed.

Lemma run_all_ok urls base pdf w : (run_all env urls base pdf w).1 = Ok tt.
Proof.
  revert w. induction urls as [|u rest IH]; intros w; [reflexivity|].
  rewrite run_all_cons. apply IH.
Qed.



End WithEnv.

End Run.



(** ** Two runs side by side *)

(** The invoice captured through the menu and the invoice captured through
    its link are the same file under the same name; the consoles differ by
    the warning. *)
Example invoice_fallback_same_file_name :
  let clean := invoiceStep Ex7.env_menu "out/12345" "12345" false (Some Ex7.invoice_url)
                 (mkWorld Ex7.home_with_link ∅ ∅ ∅ []) in
  let degraded := invoiceStep Ex7.env_menu "out/12345" "12345" false None
                 (mkWorld Ex7.home_with_menu ∅ ∅ ∅ []) in
  w_fs clean.2 = w_fs degraded.2
  /\ dir_entries clean.2 "out/12345" = ["12345__06_Invoice.png"]
  /\ w_log clean.2 = [Info "  ✔ 12345__06_Invoice.png"]
  /\ w_log degraded.2 = [warn_invoice_click; Info "  ✔ 12345__06_Invoice.png"].
Proof. vm_compute. repeat split; reflexivity. Qed.

(** Two registrants without a numeric id: the second archive replaces the
    first under the one key [unknown.zip]. *)
Example two_unknown_registrants_one_blob :
  let env := Ex.env_of (fun url => Some (Ex.blank_page url)) in
  let w' := (run_all env ["https://www.swoogo.com/r?name=ann";
                          "https://www.swoogo.com/r?name=bob"] "out" false
               Ex.empty_world).2 in
  (map_to_list (w_blobs w')).*1 = ["unknown.zip"].
Proof. vm_compute. reflexivity. Qed.

(** * Further properties of the script's functions *)

(** ** File-name helpers *)

Module SafeFacts.
Import Str StrFacts.

Lemma trim_start_no_lead x : no_lead (trim_start x).
Proof.
  induction x as [|c r IH]; simpl; [exact I|].
  destruct (is_space c) eqn:Hc; [exact IH | exact Hc].
Qed.

Lemma trim_start_fixed y : no_lead y -> trim_start y = y.
Proof. destruct y as [|c r]; simpl; [reflexivity|]. now intros ->. Qed.

Lemma trim_end_no_lead y : no_lead y -> no_lead (trim_end y).
Proof.
  destruct y as [|c r]; simpl; [auto|]. intros Hc.
  destruct (trim_end r); [rewrite Hc|]; exact Hc.
Qed.

Lemma trim_end_idem y : trim_end (trim_end y) = trim_end y.
Proof.
  induction y as [|c r IH]; simpl; [reflexivity|].
  destruct (trim_end r) as [|d r'] eqn:Hr.
  - destruct (is_space c) eqn:Hc; simpl; [reflexivity|]. now rewrite Hc.
  - cbn [trim_end]. fold trim_end. cbn [trim_end] in IH. now rewrite IH.
Qed.

Lemma trim_idem x : trim (trim x) = trim x.
Proof.
  unfold trim.
  rewrite (trim_start_fixed (trim_end (trim_start x))).
  - apply trim_end_idem.
  - apply trim_end_no_lead, trim_start_no_lead.
Qed.

Lemma replace_unsafe_clean s : all_chars clean_char (replace_unsafe s) = true.
Proof.
  induction s as [|c r IH]; simpl; [reflexivity|].
  rewrite IH, andb_true_r. unfold clean_char.
  destruct (unsafe_char c) eqn:Hu; [reflexivity | now rewrite Hu].
Qed.

Lemma replace_unsafe_fixed s : all_chars clean_char s = true -> replace_unsafe s = s.
Proof.
  induction s as [|c r IH]; simpl; [reflexivity|].
  intros [Hc Hr]%andb_prop. unfold clean_char in Hc.
  destruct (unsafe_char c); [discriminate|]. now rewrite IH.
Qed.

Lemma safe_clean s : all_chars clean_char (safe s) = true.
Proof.
  unfold safe, trim.
  apply all_chars_trim_end, all_chars_trim_start, replace_unsafe_clean.
Qed.

Lemma trim_end_fixed s :
  all_chars (fun c => negb (is_space c)) s = true -> trim_end s = s.
Proof.
  induction s as [|c r IH]; simpl; [reflexivity|].
  intros [Hc Hr]%andb_prop. rewrite (IH Hr).
  destruct r; [|reflexivity].
  destruct (is_space c); [discriminate | reflexivity].
Qed.

Lemma trim_fixed s :
  all_chars (fun c => negb (is_space c)) s = true -> trim s = s.
Proof.
  intros H. unfold trim. rewrite trim_start_fixed.
  - now apply trim_end_fixed.
  - destruct s as [|c r]; simpl in *; [exact I|].
    apply andb_prop in H as [Hc _]. now destruct (is_space c).
Qed.

Lemma digit_is_plain c : is_digit c = true -> clean_char c = true /\ is_space c = false.
Proof. destruct c as [[] [] [] [] [] [] [] []]; try discriminate; split; reflexivity. Qed.

Lemma safe_digits s : all_chars is_digit s = true -> safe s = s.
Proof.
  intros H. unfold safe.
  assert (all_chars clean_char s = true /\ all_chars (fun c => negb (is_space c)) s = true)
    as [Hc Hs].
  { induction s as [|c r IH]; simpl in *; [auto|].
    apply andb_prop in H as [Hd Hr]. destruct (IH Hr) as [-> ->].
    destruct (digit_is_plain c Hd) as [-> ->]. auto. }
  rewrite (replace_unsafe_fixed s Hc). now apply trim_fixed.
Qed.

Lemma take_digits_all s : all_chars is_digit (take_digits s) = true.
Proof.
  induction s as [|c r IH]; simpl; [reflexivity|].
  destruct (is_digit c) eqn:Hc; simpl; [now rewrite Hc, IH | reflexivity].
Qed.

Lemma match_here_digits key s d :
  match_here key s = Some d -> all_chars is_digit d = true /\ d <> EmptyString.
Proof.
  destruct s as [|c r]; simpl; [discriminate|].
  destruct (is_sep c); [|discriminate].
  destruct (strip_prefix (key ++ "=") r) as [rest|]; [|discriminate].
  pose proof (take_digits_all rest) as Hall.
  destruct (take_digits rest) as [|d0 ds]; [discriminate|].
  intros [= <-]. split; [exact Hall | discriminate].
Qed.

Lemma exec_digits key s d :
  exec_query_digits key s = Some d -> all_chars is_digit d = true /\ d <> EmptyString.
Proof.
  induction s as [|c r IH].
  - simpl. discriminate.
  - cbn [exec_query_digits].
    destruct (match_here key (String c r)) as [d'|] eqn:Hm.
    + intros [= <-]. eapply match_here_digits; eauto.
    + exact IH.
Qed.

End SafeFacts.

(** X1.  [safe] always yields a name without any of the characters it
    replaces, and applying it twice changes nothing more. *)
Theorem X1_safe_clean_and_idempotent (s : string) :
  Str.all_chars (fun c => negb (Str.unsafe_char c)) (Str.safe s) = true
  /\ Str.safe (Str.safe s) = Str.safe s.
Proof.
  split; [apply SafeFacts.safe_clean|].
  unfold Str.safe at 1.
  rewrite (SafeFacts.replace_unsafe_fixed _ (SafeFacts.safe_clean s)).
  unfold Str.safe. apply SafeFacts.trim_idem.
Qed.

(** X2.  The prefix of every evidence file is the name of the folder:
    [safe] leaves the registrant id, a run of digits or [unknown], as it
    is. *)
Theorem X2_file_prefix_is_folder_name (url : string) :
  Str.safe (regId_of url) = regId_of url.
Proof.
  unfold regId_of.
  destruct (Str.exec_query_digits "id" url) as [d|] eqn:He; simpl; [|reflexivity].
  apply SafeFacts.safe_digits. now apply (SafeFacts.exec_digits "id" url).
Qed.


(** ** Addresses built from ids *)

Module UrlFacts.
Import Str StrFacts.

Lemma exec_skip key pre s :
  all_chars not_sep pre = true ->
  exec_query_digits key (pre ++ s) = exec_query_digits key s.
Proof.
  induction pre as [|c pre IH]; intros H; [now rewrite sapp_nil|].
  simpl in H. apply andb_prop in H as [Hc Hp].
  rewrite sapp_cons. cbn [exec_query_digits match_here].
  unfold not_sep in Hc. destruct (is_sep c); [discriminate|]. now apply IH.
Qed.

Lemma take_digits_fixed d : all_chars is_digit d = true -> take_digits d = d.
Proof.
  induction d as [|c r IH]; simpl; [reflexivity|].
  intros [Hc Hr]%andb_prop. now rewrite Hc, IH.
Qed.

Lemma take_digits_stop d c r :
  all_chars is_digit d = true -> is_digit c = false ->
  take_digits (d ++ String c r) = d.
Proof.
  intros Hd Hc. induction d as [|a d IH].
  - rewrite sapp_nil. simpl. now rewrite Hc.
  - simpl in Hd. apply andb_prop in Hd as [Ha Hd].
    rewrite sapp_cons. simpl. now rewrite Ha, IH.
Qed.

Lemma encode_digits d : all_chars is_digit d = true -> encodeURIComponent d = d.
Proof.
  induction d as [|c r IH]; simpl; [reflexivity|].
  intros [Hc Hr]%andb_prop. unfold uri_unreserved. rewrite Hc. simpl. now rewrite IH.
Qed.

Lemma unreserved_not_sep c : uri_unreserved c = true -> not_sep c = true.
Proof. destruct c as [[] [] [] [] [] [] [] []]; try discriminate; reflexivity. Qed.

Lemma hex_not_sep c :
  not_sep (hex_digit (code c / 16)) = true /\ not_sep (hex_digit (code c mod 16)) = true.
Proof. destruct c as [[] [] [] [] [] [] [] []]; split; reflexivity. Qed.

(** An encoded component never holds a question mark or an ampersand. *)
Lemma encode_no_sep s : all_chars not_sep (encodeURIComponent s) = true.
Proof.
  induction s as [|c r IH]; [reflexivity|].
  cbn [encodeURIComponent].
  destruct (uri_unreserved c) eqn:Hu; cbn [all_chars].
  - now rewrite (unreserved_not_sep c Hu), IH.
  - destruct (hex_not_sep c) as [-> ->]. now rewrite IH.
Qed.

Lemma digits_not_sep d : all_chars is_digit d = true -> all_chars not_sep d = true.
Proof.
  intros H. rewrite <- (encode_digits d H). apply encode_no_sep.
Qed.

(** The pattern for [id] in an address of the form
    [prefix?eventId=E&id=I...], where the prefix and [E] hold no separator. *)
Lemma exec_id_in_query pre ev i tail :
  all_chars not_sep pre = true -> all_chars not_sep ev = true ->
  all_chars is_digit i = true -> i <> EmptyString ->
  take_digits (i ++ tail) = i ->
  exec_query_digits "id" (pre ++ "?eventId=" ++ ev ++ "&id=" ++ i ++ tail) = Some i.
Proof.
  intros Hp He Hi Hne Ht.
  rewrite exec_skip by exact Hp.
  change ("?eventId=" ++ ev ++ "&id=" ++ i ++ tail)
    with (String "?" ("eventId=" ++ (ev ++ "&id=" ++ i ++ tail))).
  cbn [exec_query_digits]. 
  replace (match_here "id" (String "?" ("eventId=" ++ ev ++ "&id=" ++ i ++ tail)))
    with (@None string) by reflexivity.
  rewrite exec_skip by reflexivity. rewrite exec_skip by exact He.
  change ("&id=" ++ i ++ tail) with (String "&" ("id=" ++ (i ++ tail))).
  cbn [exec_query_digits match_here is_sep]. simpl (Ascii.eqb _ _ || _).
  cbv iota. change ("id" ++ "=") with "id=".
  rewrite strip_prefix_self, Ht.
  destruct i; [contradiction | reflexivity].
Qed.

Lemma exec_event_in_query pre ev tail :
  all_chars not_sep pre = true ->
  all_chars is_digit ev = true -> ev <> EmptyString ->
  exec_query_digits "eventId" (pre ++ "?eventId=" ++ ev ++ String "&" tail) = Some ev.
Proof.
  intros Hp He Hne.
  rewrite exec_skip by exact Hp.
  change ("?eventId=" ++ ev ++ String "&" tail)
    with (String "?" ("eventId=" ++ (ev ++ String "&" tail))).
  cbn [exec_query_digits match_here is_sep]. simpl (Ascii.eqb _ _ || _).
  cbv iota. change ("eventId" ++ "=") with "eventId=".
  rewrite strip_prefix_self, (take_digits_stop ev "&" tail He eq_refl).
  destruct ev; [contradiction | reflexivity].
Qed.

End UrlFacts.

Module RowFacts.
Import Str StrFacts UrlFacts.

Lemma sapp_nil_r (s : string) : s ++ "" = s.
Proof. induction s as [|c r IH]; [reflexivity|]. now rewrite sapp_cons, IH. Qed.

Lemma row_url_eq args r :
  row_url args r =
    if negb (nonempty (row_explicit_url r)) && nonempty (row_id r)
       && nonempty (row_event args r)
    then "https://www.swoogo.com/loggedin/registrant/view" ++ "?eventId="
           ++ encodeURIComponent (row_event args r) ++ "&id="
           ++ encodeURIComponent (row_id r) ++ ""
    else row_explicit_url r.
Proof.
  unfold row_url. fold (row_explicit_url r) (row_id r) (row_event args r).
  destruct (negb _ && _ && _); [|reflexivity].
  rewrite sapp_nil_r. reflexivity.
Qed.

Lemma nonempty_false s : nonempty s = false <-> s = "".
Proof. destruct s; simpl; split; congruence. Qed.

Lemma nonempty_true s : nonempty s = true <-> s <> "".
Proof. destruct s; simpl; split; congruence. Qed.

End RowFacts.

(** X4.  A row without an address whose id and event id (from the row or
    from the command line) are runs of digits is usable, the address built
    for it gives both ids back to the patterns that read them, and the
    folder and the archive are named by the row's id. *)
Theorem X4_row_ids_name_the_folder (args : Args) (r : Row) (base : string) :
  row_explicit_url r = "" ->
  Str.all_chars Str.is_digit (row_id r) = true -> row_id r <> "" ->
  Str.all_chars Str.is_digit (row_event args r) = true -> row_event args r <> "" ->
  usable_urls args [r] = [row_url args r]
  /\ Str.exec_query_digits "id" (row_url args r) = Some (row_id r)
  /\ Str.exec_query_digits "eventId" (row_url args r) = Some (row_event args r)
  /\ regDir_of base (row_url args r) = Str.path_join base (row_id r)
  /\ blobName_of (row_url args r) = row_id r ++ ".zip".
Proof.
  intros Hu Hi Hin He Hen.
  assert (Str.exec_query_digits "id" (row_url args r) = Some (row_id r)) as Hid.
  { rewrite RowFacts.row_url_eq, Hu.
    rewrite (proj2 (RowFacts.nonempty_true _) Hin), (proj2 (RowFacts.nonempty_true _) Hen).
    cbn [Str.nonempty negb andb].
    rewrite (UrlFacts.encode_digits _ Hi), (UrlFacts.encode_digits _ He).
    apply UrlFacts.exec_id_in_query; auto.
    - now apply UrlFacts.digits_not_sep.
    - rewrite RowFacts.sapp_nil_r. now apply UrlFacts.take_digits_fixed. }
  split; [|split; [exact Hid|split; [|split]]].
  - unfold usable_urls. cbn [fmap list_fmap List.filter].
    destruct (Str.nonempty (row_url args r)) eqn:Hn; [reflexivity|].
    apply RowFacts.nonempty_false in Hn. rewrite Hn in Hid. discriminate.
  - rewrite RowFacts.row_url_eq, Hu.
    rewrite (proj2 (RowFacts.nonempty_true _) Hin), (proj2 (RowFacts.nonempty_true _) Hen).
    cbn [Str.nonempty negb andb].
    rewrite (UrlFacts.encode_digits _ Hi), (UrlFacts.encode_digits _ He).
    change ("&id=" ++ row_id r ++ "") with (String "&" ("id=" ++ row_id r ++ "")).
    now apply UrlFacts.exec_event_in_query.
  - unfold regDir_of, regId_of. now rewrite Hid.
  - unfold blobName_of, regId_of. now rewrite Hid.
Qed.

Lemma X4_witness :
  let r := Ex9.row in
  usable_urls Ex9.args [r] = [row_url Ex9.args r]
  /\ Str.exec_query_digits "id" (row_url Ex9.args r) = Some (row_id r)
  /\ Str.exec_query_digits "eventId" (row_url Ex9.args r) = Some (row_event Ex9.args r)
  /\ regDir_of "out" (row_url Ex9.args r) = Str.path_join "out" (row_id r)
  /\ blobName_of (row_url Ex9.args r) = row_id r ++ ".zip".
Proof.
  apply (X4_row_ids_name_the_folder Ex9.args Ex9.row "out");
    (reflexivity || discriminate).
Defined.

(** X5.  A row is dropped from the run exactly when it has no address and
    lacks the id or the event id (the event id of the command line counts
    for every row). *)
Theorem X5_row_dropped_iff (args : Args) (r : Row) :
  usable_urls args [r] = []
  <-> row_explicit_url r = "" /\ (row_id r = "" \/ row_event args r = "").
Proof.
  unfold usable_urls. cbn [fmap list_fmap List.filter].
  rewrite RowFacts.row_url_eq.
  destruct (row_explicit_url r) as [|c u] eqn:Hu; cbn [Str.nonempty negb andb].
  - destruct (row_id r) as [|ci i] eqn:Hi; cbn [Str.nonempty andb].
    + simpl. split; auto.
    + destruct (row_event args r) as [|ce e] eqn:He; cbn [Str.nonempty andb].
      * simpl. split; auto.
      * split; [discriminate|]. intros [_ [[=]|[=]]].
  - simpl. split; [discriminate|]. intros [[=] _].
Qed.

(** X6.  When the page offers no Send Email link and no Send Email form,
    and the registrant address carries both ids, [getSendEmailHref] builds
    an address that gives the same id and the same event id back to the
    patterns that read them: the preview it leads to is the one of the
    same registrant. *)
Theorem X6_constructed_send_email_address
    (env : Env) (url i e : string) (w : World) :
  Str.nonempty url = true ->
  List.find is_send_email_anchor (p_nodes (w_page w)) = None ->
  List.find is_send_email_form (p_nodes (w_page w)) = None ->
  Str.exec_query_digits "id" url = Some i ->
  Str.exec_query_digits "eventId" url = Some e ->
  exists u,
    getSendEmailHref env url w = (Ok (Some u), w)
    /\ Str.exec_query_digits "id" u = Some i
    /\ Str.exec_query_digits "eventId" u = Some e
    /\ regId_of u = regId_of url.
Proof.
  intros Hu Ha Hf Hi He.
  destruct (SafeFacts.exec_digits _ _ _ Hi) as [Hid Hine].
  destruct (SafeFacts.exec_digits _ _ _ He) as [Hed Hene].
  exists ("https://www.swoogo.com/loggedin/registrant/send-email" ++ "?eventId=" ++ e
          ++ "&id=" ++ i ++ "&RegistrantEmailForm%5Btype%5D=4840855").
  assert (Str.exec_query_digits "id"
            ("https://www.swoogo.com/loggedin/registrant/send-email" ++ "?eventId=" ++ e
             ++ "&id=" ++ i ++ "&RegistrantEmailForm%5Btype%5D=4840855") = Some i) as Hid'.
  { apply UrlFacts.exec_id_in_query; auto.
    - now apply UrlFacts.digits_not_sep.
    - now apply UrlFacts.take_digits_stop. }
  split; [|split; [exact Hid'|split]].
  - unfold getSendEmailHref, bind, get_page. rewrite Hu, Ha, Hf, Hi, He.
    cbn [default from_option]. unfold id.
    rewrite (proj2 (RowFacts.nonempty_true _) Hine), (proj2 (RowFacts.nonempty_true _) Hene).
    rewrite (UrlFacts.encode_digits _ Hid), (UrlFacts.encode_digits _ Hed).
    reflexivity.
  - change ("&id=" ++ i ++ "&RegistrantEmailForm%5Btype%5D=4840855")
      with (String "&" ("id=" ++ i ++ "&RegistrantEmailForm%5Btype%5D=4840855")).
    now apply UrlFacts.exec_event_in_query.
  - unfold regId_of. now rewrite Hid', Hi.
Qed.

Lemma X6_witness :
  exists u,
    getSendEmailHref Ex.env_plain Ex.home_url Ex5.on_home_page
      = (Ok (Some u), Ex5.on_home_page)
    /\ Str.exec_query_digits "id" u = Some "12345"
    /\ Str.exec_query_digits "eventId" u = Some "255274"
    /\ regId_of u = regId_of Ex.home_url.
Proof.
  apply (X6_constructed_send_email_address Ex.env_plain Ex.home_url "12345" "255274"
           Ex5.on_home_page); reflexivity.
Defined.


(** ** The command line *)

Section ArgsFacts.

Variable Num : Type.
Variable Number : string -> Num.
Variable num_lit : nat -> Num.
Variable num_truthy : Num -> bool.

Local Abbreviation parse := (parse_from Num Number num_truthy).
Local Abbreviation setv := (set_value Num Number num_truthy).
Local Abbreviation sets := (set_switch Num).
Local Abbreviation parse_all := (parseArgs Num Number num_lit num_truthy).
Local Abbreviation run_script := (script Num Number num_lit num_truthy).

Lemma parse_from_app_bounded n :
  forall l1, List.length l1 <= n -> forall out l2,
  awaits_value l1 = false ->
  parse out (l1 ++ l2) = parse (parse out l1) l2.
Proof.
  induction n as [|n IH]; intros l1 Hlen out l2 Hc.
  - destruct l1; [reflexivity | simpl in Hlen; lia].
  - destruct l1 as [|a rest]; [reflexivity|].
    simpl in Hlen. rewrite <- app_comm_cons. cbn [parse_from awaits_value] in *.
    destruct (value_flag a).
    + destruct rest as [|v rest']; [discriminate|].
      rewrite <- app_comm_cons. apply IH; [simpl in Hlen; lia | exact Hc].
    + apply IH; [lia | exact Hc].
Qed.

Lemma set_value_keeps a v (out : Parsed Num) :
  pa_saveSession (setv a v out) = pa_saveSession out
  /\ (a <> "--in" -> pa_in (setv a v out) = pa_in out).
Proof.
  unfold set_value.
  destruct (String.eqb_spec a "--in"); [split; [reflexivity | congruence]|].
  repeat (match goal with
          | |- context [if ?b then _ else _] => destruct b
          | |- context [match ?x with _ => _ end] => destruct x
          end; try (split; reflexivity)).
Qed.

Lemma set_switch_keeps a (out : Parsed Num) :
  pa_in (sets a out) = pa_in out
  /\ (a <> "--save-session" -> pa_saveSession (sets a out) = pa_saveSession out).
Proof.
  unfold set_switch.
  destruct (String.eqb_spec a "--save-session"); [split; [reflexivity | congruence]|].
  destruct (String.eqb a "--pdf"); split; reflexivity.
Qed.

Lemma parse_from_keeps n :
  forall args, List.length args <= n -> forall out,
  ("--in" ∉ args -> pa_in (parse out args) = pa_in out)
  /\ ("--save-session" ∉ args ->
      pa_saveSession (parse out args) = pa_saveSession out).
Proof.
  induction n as [|n IH]; intros args Hlen out.
  - destruct args; [split; reflexivity | simpl in Hlen; lia].
  - destruct args as [|a rest]; [split; reflexivity|].
    simpl in Hlen. cbn [parse_from].
    destruct (value_flag a) eqn:Hv.
    + destruct rest as [|v rest'].
      * destruct (set_value_keeps a None out) as [Hs Hi].
        split; intros Hn; [apply Hi | exact Hs].
        intros ->. apply Hn. constructor.
      * destruct (IH rest' ltac:(simpl in Hlen; lia) (setv a (Some v) out))
          as [Hi Hs].
        destruct (set_value_keeps a (Some v) out) as [Hs0 Hi0].
        split; intros Hn.
        -- rewrite Hi, Hi0; [reflexivity | |].
           ++ intros ->. apply Hn. constructor.
           ++ intros Hin. apply Hn. do 2 constructor. exact Hin.
        -- rewrite Hs, Hs0; [reflexivity|].
           intros Hin. apply Hn. do 2 constructor. exact Hin.
    + destruct (IH rest ltac:(lia) (sets a out)) as [Hi Hs].
      destruct (set_switch_keeps a out) as [Hi0 Hs0].
      split; intros Hn.
      * rewrite Hi, Hi0; [reflexivity|].
        intros Hin. apply Hn. constructor. exact Hin.
      * rewrite Hs, Hs0; [reflexivity | |].
        -- intros ->. apply Hn. constructor.
        -- intros Hin. apply Hn. constructor. exact Hin.
Qed.

(** X8.  An argument list can be read in two pieces: when the first piece
    does not end on an option that still waits for its value, reading the
    whole list is reading the second piece from what the first gave. *)
Theorem X8_arguments_read_in_pieces (out : Parsed Num) (l1 l2 : list string) :
  awaits_value l1 = false ->
  parse out (l1 ++ l2) = parse (parse out l1) l2.
Proof. apply (parse_from_app_bounded (List.length l1)). lia. Qed.

Lemma script_without_input pe argv host env w :
  (exists c, buildAzureContainerClient (sdk host) pe = inr c) ->
  pa_saveSession (parse_all argv) = false ->
  truthy (pa_in (parse_all argv)) = None ->
  (run_script env host pe argv w).1 = 1.
Proof.
  intros [c Hc] Hs Hi. unfold script, main, args_of.
  cbn [arg_saveSession arg_in]. now rewrite Hc, Hs, Hi.
Qed.

(** X9.  With the storage settings in place and no [--save-session]
    among the arguments, the process ends with status 1 when [--in] does
    not occur at all, and also when [--in] is the last argument: the
    option then reads past the end of the list. *)
Theorem X9_no_input_file_exits_1
    (env : Env) (host : Host) (pe : ProcessEnv) (argv : list string) (w : World) :
  (exists c, buildAzureContainerClient (sdk host) pe = inr c) ->
  "--save-session" ∉ argv ->
  "--in" ∉ argv
    \/ (exists l : list string, argv = (l ++ ["--in"])%list /\ awaits_value l = false) ->
  (run_script env host pe argv w).1 = 1.
Proof.
  intros Hc Hs Hin.
  destruct (parse_from_keeps (List.length argv) argv ltac:(lia)
              (parsed_default Num num_lit)) as [Hi Hsave].
  apply script_without_input; [exact Hc | exact (Hsave Hs) |].
  destruct Hin as [Hin | (l & -> & Hl)].
  - unfold parseArgs. now rewrite (Hi Hin).
  - unfold parseArgs.
    rewrite (parse_from_app_bounded (List.length l) l ltac:(lia) _ _ Hl). reflexivity.
Qed.

End ArgsFacts.

Lemma X8_witness :
  ExArgs.parse (["--in"; "registration.csv"; "--out"; "shots"] ++ ["--pdf"; "--out"; "final"])
  = parse_from (option nat) ExArgs.number ExArgs.number_truthy
      (ExArgs.parse ["--in"; "registration.csv"; "--out"; "shots"])
      ["--pdf"; "--out"; "final"].
Proof.
  apply (X8_arguments_read_in_pieces (option nat) ExArgs.number ExArgs.number_truthy).
  reflexivity.
Defined.

Lemma X9_witness :
  (script (option nat) ExArgs.number Some ExArgs.number_truthy Ex.env_plain Ex9.host
     Ex9.good_settings ["--out"; "shots"; "--pdf"; "--in"] Ex.empty_world).1 = 1.
Proof.
  apply X9_no_input_file_exits_1.
  - vm_compute. eauto.
  - vm_compute. intros H. repeat (apply elem_of_cons in H as [H|H]; [discriminate|]).
    now apply elem_of_nil in H.
  - right. exists ["--out"; "shots"; "--pdf"]. split; reflexivity.
Defined.

(** ** More on the link search *)

Module ResolveMore.
Import Str StrFacts Resolve.

Section WithEnv.

Variable env : Env.

Lemma first_match_some needles nodes h :
  first_match needles nodes = Some h ->
  exists v, In (Anchor h v) nodes /\ matches_keyword needles h = true.
Proof.
  induction nodes as [|[h0 v0|a0 v0] rest IH]; simpl; [discriminate| |].
  - destruct (matches_keyword needles h0) eqn:Hm.
    + intros [= <-]. eauto.
    + intros H. destruct (IH H) as (v & Hin & Hk). eauto.
  - intros H. destruct (IH H) as (v & Hin & Hk). eauto.
Qed.

Lemma toLowerCase_nonempty k : k <> "" -> toLowerCase k <> "".
Proof. destruct k; [congruence | discriminate]. Qed.

Lemma quick_test_is_match needles h v :
  Forall (fun k => k <> "") needles -> toLowerCase h = h ->
  anchor_href_contains (toLowerCase <$> needles) (Anchor h v) = matches_keyword needles h.
Proof.
  intros Hne Hh. unfold matches_keyword. cbn [anchor_href_contains].
  induction Hne as [|k ks Hk _ IH]; [reflexivity|].
  rewrite fmap_cons. cbn [existsb]. rewrite IH, Hh. f_equal.
  unfold css_contains. pose proof (toLowerCase_nonempty k Hk).
  destruct (toLowerCase k); [contradiction | reflexivity].
Qed.

Lemma quick_is_first_match needles nodes :
  Forall (fun k => k <> "") needles -> lowercase_hrefs nodes ->
  getAttribute_href <$> List.find (anchor_href_contains (toLowerCase <$> needles)) nodes
  = Some <$> first_match needles nodes.
Proof.
  intros Hne Hl. induction Hl as [|[h v|a v] rest Hh _ IH]; [reflexivity| |].
  - cbn [List.find first_match]. rewrite (quick_test_is_match needles h v Hne Hh).
    destruct (matches_keyword needles h); [reflexivity | exact IH].
  - cbn [List.find first_match anchor_href_contains]. exact IH.
Qed.

End WithEnv.

End ResolveMore.

(** X10.  [findActionHrefByUrlContains] touches nothing but the page,
    which it changes only by the click on the Actions button.  It throws in
    two cases only: the page does not answer the pause that follows the
    click on a visible Actions button, or the fast path found nothing and
    the page does not answer the scan.  Whenever it returns, the result is
    that of the search on the page after the click, and it is null exactly
    when no anchor of that page has an address that contains one of the
    keywords, case ignored. *)
Theorem X10_search_throws_or_null_iff_no_match
    (env : Env) (needles : list string) (openActions : bool) (w : World) :
  let p' := page_after_actions env openActions (w_page w) in
  let wanted := Str.toLowerCase <$> needles in
  let clicked := openActions && p_actions (w_page w) in
  let r := findActionHrefByUrlContains env needles openActions w in
  r.2 = mkWorld p' (w_fs w) (w_zips w) (w_blobs w) (w_log w)
  /\ (r.1 = Throw "page.waitForTimeout"
      <-> clicked = true /\ waitForTimeout_ok env p' = false)
  /\ (r.1 = Throw "page.evaluate"
      <-> (clicked = false \/ waitForTimeout_ok env p' = true)
          /\ fast_href env p' wanted = None /\ evaluate_ok env p' = false)
  /\ (forall e, r.1 = Throw e -> e = "page.waitForTimeout" \/ e = "page.evaluate")
  /\ (forall res, r.1 = Ok res ->
        res = find_href_in env p' wanted
        /\ (res = None <-> first_match needles (p_nodes p') = None)).
Proof.
  intros p' wanted clicked r.
  assert (forall q res,
            match fast_href env q wanted with
            | Some u => res = Some u
            | None => res = scan_anchors env (Str.toLowerCase <$> wanted)
                              (p_baseURI q) (p_nodes q)
            end ->
            res = find_href_in env q wanted
            /\ (res = None <-> first_match needles (p_nodes q) = None)) as Hsearch.
  { intros q res Hres.
    assert (res = find_href_in env q wanted) as ->.
    { unfold find_href_in. destruct (fast_href env q wanted); exact Hres. }
    split; [reflexivity | apply Resolve.find_href_none_iff]. }
  subst p' clicked r. destruct w as [p fs zips blobs log].
  unfold findActionHrefByUrlContains, page_after_actions, bind, get_page, set_page, ret, throw.
  cbn [w_page w_fs w_zips w_blobs w_log].
  assert (forall q : Page,
            (openActions && p_actions p = false \/ waitForTimeout_ok env q = true) ->
            let r := match fast_href env q wanted with
                     | Some u => ret (Some u)
                     | None =>
                         if evaluate_ok env q
                         then ret (scan_anchors env (Str.toLowerCase <$> wanted)
                                     (p_baseURI q) (p_nodes q))
                         else throw "page.evaluate"
                     end (mkWorld q fs zips blobs log) in
            r.2 = mkWorld q fs zips blobs log
            /\ (r.1 = Throw "page.waitForTimeout"
                <-> openActions && p_actions p = true /\ waitForTimeout_ok env q = false)
            /\ (r.1 = Throw "page.evaluate"
                <-> (openActions && p_actions p = false \/ waitForTimeout_ok env q = true)
                    /\ fast_href env q wanted = None /\ evaluate_ok env q = false)
            /\ (forall e, r.1 = Throw e ->
                  e = "page.waitForTimeout" \/ e = "page.evaluate")
            /\ (forall res, r.1 = Ok res ->
                  res = find_href_in env q wanted
                  /\ (res = None <-> first_match needles (p_nodes q) = None))) as Hphase.
  { intros q Hq. pose proof (Hsearch q) as Hs.
    destruct (fast_href env q wanted) as [u|] eqn:Hf;
      [|destruct (evaluate_ok env q) eqn:He]; unfold ret, throw; cbn [fst snd].
    - split; [reflexivity|]. split; [split; [discriminate|]|].
      { intros [Hc Hw]. destruct Hq as [Hq|Hq]; congruence. }
      split; [split; [discriminate | intros (_ & [=] & _)]|].
      split; [discriminate|]. intros res [= <-]. now apply Hs.
    - split; [reflexivity|]. split; [split; [discriminate|]|].
      { intros [Hc Hw]. destruct Hq as [Hq|Hq]; congruence. }
      split; [split; [discriminate | intros (_ & _ & [=])]|].
      split; [discriminate|]. intros res [= <-]. now apply Hs.
    - split; [reflexivity|]. split; [split; [discriminate|]|].
      { intros [Hc Hw]. destruct Hq as [Hq|Hq]; congruence. }
      split; [split; auto|].
      split; [intros e [= <-]; now right | discriminate]. }
  destruct openActions; cbn [andb w_page w_fs w_zips w_blobs w_log];
    [|exact (Hphase p (or_introl eq_refl))].
  destruct (p_actions p) eqn:Ha; [|exact (Hphase p (or_introl eq_refl))].
  assert (forall q : Page,
            waitForTimeout_ok env q = false ->
            let r := (@Throw (option string) "page.waitForTimeout",
                      mkWorld q fs zips blobs log) in
            r.2 = mkWorld q fs zips blobs log
            /\ (r.1 = Throw "page.waitForTimeout"
                <-> true = true /\ waitForTimeout_ok env q = false)
            /\ (r.1 = Throw "page.evaluate"
                <-> (true = false \/ waitForTimeout_ok env q = true)
                    /\ fast_href env q wanted = None /\ evaluate_ok env q = false)
            /\ (forall e, r.1 = Throw e ->
                  e = "page.waitForTimeout" \/ e = "page.evaluate")
            /\ (forall res, r.1 = Ok res ->
                  res = find_href_in env q wanted
                  /\ (res = None <-> first_match needles (p_nodes q) = None))) as Hwait.
  { intros q Hw. cbn [fst snd]. split; [reflexivity|]. split; [split; auto|].
    split; [split; [discriminate | intros ([[=]|Hw'] & _); congruence]|].
    split; [intros e [= <-]; now left | discriminate]. }
  destruct (actions_click env p) as [p1|] eqn:Hc; cbn [default from_option w_page];
    unfold id.
  - destruct (waitForTimeout_ok env p1) eqn:Hw.
    + pose proof (Hphase p1 (or_intror Hw)) as H. rewrite Hw in H. exact H.
    + pose proof (Hwait p1 Hw) as H. rewrite Hw in H. exact H.
  - destruct (waitForTimeout_ok env p) eqn:Hw.
    + pose proof (Hphase p (or_intror Hw)) as H. rewrite Hw in H. exact H.
    + pose proof (Hwait p Hw) as H. rewrite Hw in H. exact H.
Qed.

(** X11.  Whatever address the search returns comes from an anchor of the
    page whose [href] contains one of the keywords, case ignored: it is
    that [href] made absolute against the page address or the document
    base (or left as it is when it cannot be resolved). *)
Theorem X11_search_result_comes_from_a_matching_anchor
    (env : Env) (p : Page) (needles : list string) (u : string) :
  find_href_in env p (Str.toLowerCase <$> needles) = Some u ->
  exists h v,
    In (Anchor h v) (p_nodes p)
    /\ matches_keyword needles h = true
    /\ (u = absolute_or_raw env h (p_url p) \/ u = absolute_or_raw env h (p_baseURI p)).
Proof.
  unfold find_href_in, fast_href. rewrite Resolve.scan_is_first_match.
  destruct (List.find _ (p_nodes p)) as [n|] eqn:Hq.
  - pose proof Hq as Hin. apply find_some in Hin as [Hin _].
    apply Resolve.quick_hit_matches in Hq as (h & v & -> & Hm).
    cbn [node_visible getAttribute_href].
    destruct v; [destruct (Str.nonempty h)|].
    + intros [= <-]. exists h, true. auto.
    + destruct (first_match needles (p_nodes p)) as [h'|] eqn:Hf; [|discriminate].
      intros [= <-]. apply ResolveMore.first_match_some in Hf as (v' & Hin' & Hm').
      exists h', v'. auto.
    + destruct (first_match needles (p_nodes p)) as [h'|] eqn:Hf; [|discriminate].
      intros [= <-]. apply ResolveMore.first_match_some in Hf as (v' & Hin' & Hm').
      exists h', v'. auto.
  - destruct (first_match needles (p_nodes p)) as [h'|] eqn:Hf; [|discriminate].
    intros [= <-]. apply ResolveMore.first_match_some in Hf as (v' & Hin' & Hm').
    exists h', v'. auto.
Qed.

Lemma X11_witness :
  exists h v,
    In (Anchor h v) (p_nodes Ex3.home_with_confirmation)
    /\ matches_keyword ["confirmation"] h = true
    /\ ("https://www.swoogo.com/loggedin/registrant/confirmation?id=12345"
          = absolute_or_raw Ex.env_plain h (p_url Ex3.home_with_confirmation)
        \/ "https://www.swoogo.com/loggedin/registrant/confirmation?id=12345"
          = absolute_or_raw Ex.env_plain h (p_baseURI Ex3.home_with_confirmation)).
Proof.
  apply (X11_search_result_comes_from_a_matching_anchor Ex.env_plain
           Ex3.home_with_confirmation ["confirmation"]).
  reflexivity.
Defined.

(** X12.  When the anchor addresses of the page are in lower case and no
    keyword is empty, the first anchor in document order that matches a
    keyword wins: the result is its address made absolute, against the page
    address when the fast path takes it and against the document base
    otherwise. *)
Theorem X12_first_match_wins_on_lowercase_addresses
    (env : Env) (p : Page) (needles : list string) :
  Forall (fun k => k <> "") needles ->
  lowercase_hrefs (p_nodes p) ->
  find_href_in env p (Str.toLowerCase <$> needles)
    = (fun h => absolute_or_raw env h (p_url p)) <$> first_match needles (p_nodes p)
  \/ find_href_in env p (Str.toLowerCase <$> needles)
    = (fun h => absolute_or_raw env h (p_baseURI p)) <$> first_match needles (p_nodes p).
Proof.
  intros Hne Hl.
  pose proof (ResolveMore.quick_is_first_match needles (p_nodes p) Hne Hl) as Hq.
  unfold find_href_in, fast_href. rewrite Resolve.scan_is_first_match.
  destruct (List.find _ (p_nodes p)) as [n|]; simpl in Hq.
  - destruct (first_match needles (p_nodes p)) as [h|]; [|discriminate].
    simpl in Hq. injection Hq as Hn.
    destruct n as [h0 v|a v]; [|discriminate]. simpl in Hn. injection Hn as ->.
    cbn [node_visible getAttribute_href].
    destruct v; [destruct (Str.nonempty h)|]; simpl; auto.
  - destruct (first_match needles (p_nodes p)); [discriminate|]. now left.
Qed.

Lemma X12_witness :
  find_href_in Ex.env_plain Ex3.home_with_confirmation (Str.toLowerCase <$> ["confirmation"])
    = (fun h => absolute_or_raw Ex.env_plain h (p_url Ex3.home_with_confirmation))
        <$> first_match ["confirmation"] (p_nodes Ex3.home_with_confirmation)
  \/ find_href_in Ex.env_plain Ex3.home_with_confirmation (Str.toLowerCase <$> ["confirmation"])
    = (fun h => absolute_or_raw Ex.env_plain h (p_baseURI Ex3.home_with_confirmation))
        <$> first_match ["confirmation"] (p_nodes Ex3.home_with_confirmation).
Proof.
  apply X12_first_match_wins_on_lowercase_addresses.
  - repeat constructor; discriminate.
  - repeat constructor.
Defined.

(** ** More on the full-page capture *)

Module FullPage.


Lemma restore_element_marker e : el_pre_expand (restore_element e) = None.
Proof. unfold restore_element. destruct (el_pre_expand e) eqn:H; [reflexivity | exact H]. Qed.

Lemma restore_element_idem e : restore_element (restore_element e) = restore_element e.
Proof.
  unfold restore_element at 1. now rewrite restore_element_marker.
Qed.




End FullPage.

(** X13.  When the screenshot itself fails, [captureFullPage] throws
    without writing or printing anything, and the page is left as the
    expansion made it: the style tag is in, root and body are at
    [overflow: visible], and every scrolling box is still expanded and
    still carries its marker (there is no restore on this path). *)
Theorem X13_failed_screenshot_leaves_page_expanded
    (fileBase : string) (pdf : bool) (w : World) :
  p_shot (w_page w) = false ->
  captureFullPage fileBase pdf w =
    (Throw "page.screenshot",
     mkWorld (expand_dom (with_hidden_panel (w_page w)))
       (w_fs w) (w_zips w) (w_blobs w) (w_log w))
  /\ p_elems (expand_dom (with_hidden_panel (w_page w)))
     = expand_if_scrollable <$> p_elems (w_page w).
Proof.
  intros Hs. split; [|reflexivity].
  destruct w as [p fs zips blobs log]. simpl in Hs.
  unfold captureFullPage, hideLeftPanel, expandScrollableContainers, page_screenshot,
    bind, get_page, set_page.
  simpl. rewrite Hs. reflexivity.
Qed.

Lemma X13_witness :
  captureFullPage "out/12345/12345__01_Attendance_Status_Proof" true Ex14.world_no_shot =
    (Throw "page.screenshot",
     mkWorld (expand_dom (with_hidden_panel (w_page Ex14.world_no_shot)))
       (w_fs Ex14.world_no_shot) (w_zips Ex14.world_no_shot)
       (w_blobs Ex14.world_no_shot) (w_log Ex14.world_no_shot))
  /\ p_elems (expand_dom (with_hidden_panel (w_page Ex14.world_no_shot)))
     = expand_if_scrollable <$> p_elems (w_page Ex14.world_no_shot).
Proof.
  apply (X13_failed_screenshot_leaves_page_expanded
           "out/12345/12345__01_Attendance_Status_Proof" true Ex14.world_no_shot).
  reflexivity.
Defined.



(** X15.  A PDF export that fails is invisible: with the export asked for
    and failing, the capture does exactly what it does without the export
    (same result, same files, same console, same page). *)
Theorem X15_failed_pdf_export_changes_nothing (fileBase : string) (w : World) :
  p_pdf (w_page w) = false ->
  captureFullPage fileBase true w = captureFullPage fileBase false w.
Proof.
  intros Hp. destruct w as [p fs zips blobs log]. simpl in Hp.
  unfold captureFullPage, hideLeftPanel, expandScrollableContainers, page_screenshot,
    restoreScrollableContainers, page_pdf_quiet, bind, get_page, set_page.
  simpl. destruct (p_shot p); simpl; [|reflexivity]. rewrite Hp. reflexivity.
Qed.

Lemma X15_witness :
  captureFullPage "out/12345/12345__06_Invoice" true Ex14.world
  = captureFullPage "out/12345/12345__06_Invoice" false Ex14.world.
Proof.
  apply (X15_failed_pdf_export_changes_nothing "out/12345/12345__06_Invoice" Ex14.world).
  reflexivity.
Defined.

(** X16.  [restoreScrollableContainers] leaves no marker on any element,
    and running it again changes nothing. *)
Theorem X16_restore_clears_markers_and_is_idempotent (p : Page) :
  el_pre_expand (p_html (restore_dom p)) = None
  /\ el_pre_expand (p_body (restore_dom p)) = None
  /\ Forall (fun e => el_pre_expand e = None) (p_elems (restore_dom p))
  /\ restore_dom (restore_dom p) = restore_dom p.
Proof.
  split; [apply FullPage.restore_element_marker|].
  split; [apply FullPage.restore_element_marker|]. split.
  - cbn [restore_dom with_dom p_elems]. apply Forall_fmap, Forall_forall.
    intros e _. apply FullPage.restore_element_marker.
  - destruct p as [url base actions nodes iframes email preview html body elems tags shot pdf].
    unfold restore_dom, with_dom. cbn.
    rewrite !FullPage.restore_element_idem. f_equal.
    rewrite <- list_fmap_compose. apply list_fmap_ext.
    intros i e _. apply FullPage.restore_element_idem.
Qed.

(** ** More on packaging and on the run *)

Module RunFacts.


Section WithEnv.

Variable env : Env.





Lemma run_all_app l1 l2 base pdf w :
  run_all env (l1 ++ l2) base pdf w
  = run_all env l2 base pdf (run_all env l1 base pdf w).2.
Proof.
  revert w. induction l1 as [|u rest IH]; intros w; [reflexivity|].
  rewrite <- app_comm_cons, !Run.run_all_cons. apply IH.
Qed.


End WithEnv.

End RunFacts.





(** X19.  The run never throws, whatever happens to its registrants, and
    a run over a list in two pieces is the run over the first piece
    followed by the run over the second. *)
Theorem X19_run_never_throws_and_composes
    (env : Env) (l1 l2 : list string) (base : string) (pdf : bool) (w : World) :
  (run_all env l1 base pdf w).1 = Ok tt
  /\ run_all env (l1 ++ l2) base pdf w
     = run_all env l2 base pdf (run_all env l1 base pdf w).2.
Proof. split; [apply Run.run_all_ok | apply RunFacts.run_all_app]. Qed.


(** ** The registrant name *)

Module NameFacts.
Import Str StrFacts SafeFacts.

Lemma safe_keeps_nonempty t : no_lead t -> t <> "" -> safe t <> "".
Proof.
  destruct t as [|c r]; [congruence|]. simpl. intros Hc _.
  unfold safe, trim. cbn [replace_unsafe].
  set (c' := if unsafe_char c then "_"%char else c).
  assert (is_space c' = false) as Hc'.
  { subst c'. destruct (unsafe_char c); [reflexivity | exact Hc]. }
  cbn [trim_start]. rewrite Hc'. cbn [trim_end].
  destruct (trim_end (replace_unsafe r)); [rewrite Hc'|]; discriminate.
Qed.

Lemma collapse_all_space s :
  all_chars is_space s = true -> collapse_spaces s = "" \/ collapse_spaces s = " ".
Proof.
  induction s as [|c r IH]; [now left|].
  cbn [all_chars]. intros [Hc Hr]%andb_prop. cbn [collapse_spaces]. rewrite Hc.
  destruct r as [|c' r']; [now right|].
  cbn [all_chars] in Hr. pose proof Hr as [Hc'' _]%andb_prop. rewrite Hc''.
  apply IH. exact Hr.
Qed.

Lemma blank_text_trims_to_nothing s :
  all_chars is_space s = true -> trim (collapse_spaces s) = "".
Proof. intros H. destruct (collapse_all_space s H) as [-> | ->]; reflexivity. Qed.

End NameFacts.

(** X21.  [extractRegistrantName] always returns a name that is not empty
    and holds none of the characters [safe] replaces; when no candidate
    gives a name (nothing matches, or the text is white space only) it
    returns [registrant]. *)
Theorem X21_registrant_name (candidates : list (nat * option string)) :
  extractRegistrantName candidates <> ""
  /\ Str.all_chars clean_char (extractRegistrantName candidates) = true
  /\ (Forall no_name candidates -> extractRegistrantName candidates = "registrant").
Proof.
  induction candidates as [|[count text] rest (IH1 & IH2 & IH3)].
  - repeat split; discriminate.
  - cbn [extractRegistrantName]. destruct count as [|n].
    + split; [exact IH1|]. split; [exact IH2|].
      intros [_ Hr]%Forall_cons. exact (IH3 Hr).
    + cbv zeta.
      destruct (Str.nonempty (Str.trim (collapse_spaces (default "" text)))) eqn:Hn.
      * split; [|split; [apply SafeFacts.safe_clean|]].
        -- apply NameFacts.safe_keeps_nonempty.
           ++ apply SafeFacts.trim_end_no_lead, SafeFacts.trim_start_no_lead.
           ++ now apply RowFacts.nonempty_true.
        -- intros [[Hc|Hs] _]%Forall_cons; [discriminate|].
           simpl in Hs. rewrite (NameFacts.blank_text_trims_to_nothing _ Hs) in Hn.
           discriminate.
      * split; [exact IH1|]. split; [exact IH2|].
        intros [_ Hr]%Forall_cons. exact (IH3 Hr).
Qed.

(** ** Two more edge cases of the evidence steps *)

(** X22.  A Send Email link on the page takes precedence over the address
    that could be built from the ids, also when the link cannot be
    resolved: [getSendEmailHref] then throws, and the ticket e-mail step
    writes nothing and only prints that the preview could not be
    captured. *)
Theorem X22_unresolvable_link_blocks_ticket_email
    (env : Env) (url dir bn href : string) (visible : bool) (w : World) :
  List.find is_send_email_anchor (p_nodes (w_page w)) = Some (Anchor href visible) ->
  new_URL env href (p_url (w_page w)) = None ->
  getSendEmailHref env url w = (Throw "Invalid URL", w)
  /\ ticketEmailStep env url dir bn w
     = (Ok tt, (console (Warn ("  ⚠ Could not capture Ticket Email Preview: "
                               ++ "Invalid URL")) w).2).
Proof.
  intros Hf Hn.
  assert (Str.nonempty href = true) as Hne.
  { apply find_some in Hf as [_ Hc]. simpl in Hc.
    unfold Str.css_contains, send_email_path in Hc.
    destruct href; [discriminate | reflexivity]. }
  assert (getSendEmailHref env url w = (Throw "Invalid URL", w)) as Hg.
  { unfold getSendEmailHref, bind, get_page, new_URL_string.
    rewrite Hf, Hne, Hn. reflexivity. }
  split; [exact Hg|].
  unfold ticketEmailStep, try_catch. unfold bind at 1. rewrite Hg. reflexivity.
Qed.

Lemma X22_witness :
  getSendEmailHref Ex22.env_strict Ex.home_url Ex22.world
    = (Throw "Invalid URL", Ex22.world)
  /\ ticketEmailStep Ex22.env_strict Ex.home_url "out/12345" "12345" Ex22.world
     = (Ok tt, (console (Warn ("  ⚠ Could not capture Ticket Email Preview: "
                               ++ "Invalid URL")) Ex22.world).2).
Proof.
  apply (X22_unresolvable_link_blocks_ticket_email Ex22.env_strict Ex.home_url
           "out/12345" "12345" Ex22.bad_href true Ex22.world); reflexivity.
Defined.


